(** * World Bank data pipeline

    A shallow embedding of the scraping/normalising/loading pipeline
    ([src/scraper.py], [src/database.py], [scripts/setup.py]) and of the
    country-profile query of [src/api.py].

    Conventions of the embedding:
    - Python [str] is [string]; the text functions below cover ASCII text
      (Python's [\d], [lower], [strip] also act on non-ASCII code points,
      which are outside this model).
    - Python [float] values are represented by the rational number their
      decimal text denotes, in lowest terms ([Qred]).  The binary64 value
      Python computes is the correctly rounded image of that number, so two
      texts with equal denotation give equal floats.
    - A Python [dict] whose iteration order matters (the categories of a
      record) is an association list in insertion order; the dict built by
      the profile query is a [gmap]; the set of seen codes is a [gset].
    - Accumulator loops are folds over an explicit state; [try]/[except]
      blocks run in an error monad and database code in a state-and-error
      monad.
    - Network, file system and database failures are inputs: a [World]
      says what each request returns and which step raises. *)

From Stdlib Require Import ZArith QArith Strings.String Strings.Ascii.
From Stdlib Require Import Numbers.DecimalString Numbers.DecimalNat Sorting.Sorted.
From stdpp Require Import base list sets gmap strings.

Local Open Scope Z_scope.

(** ** Text primitives *)

Module Text.

Fixpoint filter (p : ascii → bool) (s : string) : string :=
  match s with
  | EmptyString => EmptyString
  | String c s' => if p c then String c (filter p s') else filter p s'
  end.

Fixpoint map (f : ascii → ascii) (s : string) : string :=
  match s with
  | EmptyString => EmptyString
  | String c s' => String (f c) (map f s')
  end.

Fixpoint all (p : ascii → bool) (s : string) : bool :=
  match s with
  | EmptyString => true
  | String c s' => p c && all p s'
  end.

(** [s[:n]] for a non-negative [n]. *)
Fixpoint take (n : nat) (s : string) : string :=
  match n, s with
  | S n', String c s' => String c (take n' s')
  | _, _ => EmptyString
  end.

Definition code (c : ascii) : N := N_of_ascii c.

Definition between (lo hi : N) (c : ascii) : bool :=
  ((lo <=? code c) && (code c <=? hi))%N.

Definition is_digit : ascii → bool := between 48 57.
Definition is_upper : ascii → bool := between 65 90.
Definition is_lower : ascii → bool := between 97 122.
Definition is_alnum (c : ascii) : bool := is_digit c || is_upper c || is_lower c.

(** [str.isspace] on ASCII: TAB, LF, VT, FF, CR, FS, GS, RS, US, SPACE. *)
Definition is_space (c : ascii) : bool := between 9 13 c || between 28 32 c.

Definition lower_char (c : ascii) : ascii :=
  if is_upper c then ascii_of_N (code c + 32) else c.
Definition upper_char (c : ascii) : ascii :=
  if is_lower c then ascii_of_N (code c - 32) else c.

(** [str.lower], [str.upper]. *)
Definition lower : string → string := map lower_char.
Definition upper : string → string := map upper_char.

Definition digit_val (c : ascii) : Z := Z.of_N (code c) - 48.

Definition is_empty (s : string) : bool :=
  match s with EmptyString => true | _ => false end.

(** [s.split(sep)] for a one-character separator: never empty. *)
Fixpoint split_on (sep : ascii) (s : string) : list string :=
  match s with
  | EmptyString => [EmptyString]
  | String c s' =>
      if Ascii.eqb c sep then EmptyString :: split_on sep s'
      else match split_on sep s' with
           | piece :: pieces => String c piece :: pieces
           | [] => [String c EmptyString]
           end
  end.

Fixpoint lstrip (s : string) : string :=
  match s with
  | EmptyString => EmptyString
  | String c s' => if is_space c then lstrip s' else s
  end.

Fixpoint rstrip (s : string) : string :=
  match s with
  | EmptyString => EmptyString
  | String c s' =>
      match rstrip s' with
      | EmptyString => if is_space c then EmptyString else String c EmptyString
      | rest => String c rest
      end
  end.

(** [s.strip()] *)
Definition strip (s : string) : string := rstrip (lstrip s).

(** [pat in s] *)
Fixpoint contains (pat s : string) : bool :=
  String.prefix pat s ||
  match s with
  | EmptyString => false
  | String _ s' => contains pat s'
  end.

(** [s.replace(pat, "")] for a non-empty [pat]: occurrences are removed
    left to right without overlap; [skip] counts the characters of the
    occurrence being removed that are still ahead. *)
Fixpoint remove_all (pat s : string) (skip : nat) : string :=
  match s with
  | EmptyString => EmptyString
  | String c s' =>
      match skip with
      | S k => remove_all pat s' k
      | O =>
          if String.prefix pat s
          then remove_all pat s' (String.length pat - 1)
          else String c (remove_all pat s' 0)
      end
  end.

(** [str(n)] for a natural number. *)
Definition of_nat (n : nat) : string := NilZero.string_of_uint (Nat.to_uint n).

End Text.

(** ** Data model *)

(** A raw indicator value as found in a per-country record: text, or an
    already numeric value. *)
Inductive pyval :=
  | PyStr (s : string)
  | PyNum (q : Q).

(** One entry of [country_data['indicators'][category]]. *)
Record Indicator := mkIndicator {
  ind_name : string;
  ind_code : string;
  ind_value : option pyval;   (* [indicator.get('value')] *)
  ind_year : option Z         (* [indicator.get('year')] *)
}.

(** A per-country record as [get_country_data] builds it. *)
Record CountryData := mkCountryData {
  cd_name : string;
  cd_code : string;
  cd_url : string;
  cd_indicators : list (string * list Indicator);
  cd_region : option string;
  cd_income_level : option string;
  cd_capital : option string
}.

(** Rows of the three tables. *)
Record CountryRow := mkCountryRow {
  c_country_code : string;
  c_name : string;
  c_region : option string;
  c_income_level : option string;
  c_capital : option string;
  c_iso2_code : option string;
  c_iso3_code : option string
}.

Record IndicatorRow := mkIndicatorRow {
  i_indicator_code : string;
  i_name : string;
  i_category : option string;
  i_description : string;
  i_source : string
}.

Record ValueRow := mkValueRow {
  v_country_code : string;
  v_indicator_code : string;
  v_year : Z;
  v_value : Q
}.

(** ** Normalizer: [process_data_for_db] *)

(** [re.sub(r'[^\d.-]', '', value_str)] *)
Definition numeric_char (c : ascii) : bool :=
  Text.is_digit c || Ascii.eqb c "." || Ascii.eqb c "-".

Definition strip_non_numeric (s : string) : string := Text.filter numeric_char s.

(** Digits with at most one decimal point and at least one digit:
    [mant] collects the digits, [scale] counts those after the point. *)
Fixpoint scan_decimal (s : string) (seen_dot : bool) (ndigits : nat)
    (mant : Z) (scale : nat) : option (Z * nat) :=
  match s with
  | EmptyString =>
      match ndigits with O => None | S _ => Some (mant, scale) end
  | String c s' =>
      if Text.is_digit c then
        scan_decimal s' seen_dot (S ndigits) (10 * mant + Text.digit_val c)
          (if seen_dot then S scale else scale)
      else if Ascii.eqb c "." then
        if seen_dot then None else scan_decimal s' true ndigits mant scale
      else None
  end.

Definition decimal_value (neg : bool) (ms : Z * nat) : Q :=
  let '(m, k) := ms in
  Qred (Qmake (if neg then - m else m) (Z.to_pos (10 ^ Z.of_nat k))).

(** [float(s)] for a text [s] over digits, ['.'] and ['-'] (all that
    [strip_non_numeric] leaves); [None] stands for [ValueError]. *)
Definition py_float (s : string) : option Q :=
  match s with
  | String "-" s' => decimal_value true <$> scan_decimal s' false 0 0 0
  | _ => decimal_value false <$> scan_decimal s false 0 0 0
  end.

Definition Q_is_zero (q : Q) : bool := Qnum q =? 0.

(** Lines 70-75: the cleaned value, [None] when the text is empty or
    does not parse (the [except] branch only prints). *)
Definition coerce_value (v : pyval) : option Q :=
  match v with
  | PyStr s =>
      let value_str := strip_non_numeric s in
      match value_str with
      | EmptyString => None
      | _ => py_float value_str
      end
  | PyNum q => if Q_is_zero q then None else Some (Qred q)
  end.

(** Line 67: [indicator.get('year')] is truthy. *)
Definition truthy_year (y : option Z) : option Z :=
  match y with
  | Some y => if y =? 0 then None else Some y
  | None => None
  end.

(** Lines 67-85: the value row an indicator contributes, if any. *)
Definition value_row_of (country_code : string) (indicator : Indicator) : option ValueRow :=
  match ind_value indicator, truthy_year (ind_year indicator) with
  | Some raw, Some year =>
      match coerce_value raw with
      | Some value => Some (mkValueRow country_code (ind_code indicator) year value)
      | None => None
      end
  | _, _ => None
  end.

(** Lines 51-55: linear scan of the indicators collected so far. *)
Definition indicator_exists (indicators : list IndicatorRow) (indicator_code : string) : bool :=
  existsb (λ existing, String.eqb (i_indicator_code existing) indicator_code) indicators.

Definition new_indicator (category : string) (indicator : Indicator) : IndicatorRow :=
  mkIndicatorRow (ind_code indicator) (ind_name indicator) (Some category) "" "Banco Mundial".

(** The three accumulators of the loop. *)
Record Tables := mkTables {
  t_countries : list CountryRow;
  t_indicators : list IndicatorRow;
  t_indicator_values : list ValueRow
}.

(** Body of [for indicator in category_indicators] (lines 47-85). *)
Definition process_indicator (country_code category : string)
    (st : Tables) (indicator : Indicator) : Tables :=
  let indicators :=
    if indicator_exists (t_indicators st) (ind_code indicator)
    then t_indicators st
    else t_indicators st ++ [new_indicator category indicator] in
  let indicator_values :=
    match value_row_of country_code indicator with
    | Some row => t_indicator_values st ++ [row]
    | None => t_indicator_values st
    end in
  mkTables (t_countries st) indicators indicator_values.

(** Body of [for category, category_indicators in ... .items()]. *)
Definition process_category (country_code : string)
    (st : Tables) (entry : string * list Indicator) : Tables :=
  fold_left (process_indicator country_code entry.1) entry.2 st.

Definition iso2_of (country_code : string) : option string :=
  if (2 <=? String.length country_code)%nat
  then Some (Text.lower (Text.take 2 country_code)) else None.

Definition iso3_of (country_code : string) : option string :=
  if (3 <=? String.length country_code)%nat
  then Some (Text.upper (Text.take 3 country_code)) else None.

Definition country_row (country : CountryData) : CountryRow :=
  let country_code := cd_code country in
  mkCountryRow country_code (cd_name country) (cd_region country)
    (cd_income_level country) (cd_capital country)
    (iso2_of country_code) (iso3_of country_code).

(** Body of [for country in countries_data] (lines 32-85). *)
Definition process_country (st : Tables) (country : CountryData) : Tables :=
  let st' := mkTables (t_countries st ++ [country_row country])
                      (t_indicators st) (t_indicator_values st) in
  fold_left (process_category (cd_code country)) (cd_indicators country) st'.

Definition process_data_for_db (countries_data : list CountryData) : Tables :=
  fold_left process_country countries_data (mkTables [] [] []).

(** ** Declarative views of the normalizer's three outputs *)

(** Every (category, indicator) occurrence, in the iteration order of the
    three nested loops. *)
Definition occurrences (countries_data : list CountryData) : list (string * Indicator) :=
  country ← countries_data;
  entry ← cd_indicators country;
  (λ indicator, (entry.1, indicator)) <$> entry.2.

Definition occ_code (o : string * Indicator) : string := ind_code o.2.

(** One step of the linear-scan deduplication of lines 51-64. *)
Definition add_indicator (indicators : list IndicatorRow) (o : string * Indicator) :
    list IndicatorRow :=
  if indicator_exists indicators (occ_code o)
  then indicators
  else indicators ++ [new_indicator o.1 o.2].

Definition value_rows (countries_data : list CountryData) : list ValueRow :=
  country ← countries_data;
  entry ← cd_indicators country;
  omap (value_row_of (cd_code country)) entry.2.

(** The key of the uniqueness constraint on [indicator_values]. *)
Definition triple (r : ValueRow) : string * string * Z :=
  (v_country_code r, v_indicator_code r, v_year r).

(** ** Failure and the outside world *)

(** The exceptions the pipeline meets; all are subclasses of [Exception]. *)
Inductive exn :=
  | RequestException   (* transport failure or non-success status *)
  | MarkupError        (* unexpected page shape *)
  | OSError            (* a raw file could not be written *)
  | DatabaseError.     (* sqlite3 / pandas failure *)

Inductive result (A : Type) :=
  | Ok (a : A)
  | Raise (e : exn).
Arguments Ok {A} a.
Arguments Raise {A} e.

#[export] Instance result_ret : MRet result := λ A a, Ok a.
#[export] Instance result_bind : MBind result := λ A B k m,
  match m with
  | Ok a => k a
  | Raise e => Raise e
  end.

(** An [a] element with an [href] attribute, as [soup.find_all('a', href=True)]
    returns it. *)
Record Anchor := mkAnchor {
  a_href : string;
  a_text : string
}.

(** A row-like element: the texts of its name-like and value-like
    sub-elements, when [element.find] locates them. *)
Record RowElement := mkRowElement {
  r_name_text : option string;
  r_value_text : option string
}.

(** A section-like element: its [get_text()] and its row-like elements. *)
Record SectionElement := mkSectionElement {
  s_text : string;
  s_rows : list RowElement
}.

(** What the BeautifulSoup queries of [get_country_data] return on a page. *)
Record CountryPage := mkCountryPage {
  p_region_next : option string;   (* text after the "Region" label *)
  p_income_next : option string;   (* text after the "Income" label *)
  p_sections : list SectionElement
}.

(** The steps of the loader that can raise. *)
Inductive db_step :=
  | StepConnect | StepSchema | StepCountries | StepIndicators | StepValues | StepIndexes.

(** One run's environment: what each request returns, whether each raw file
    can be written, and which database step raises. *)
Record World := mkWorld {
  countries_page : result (list Anchor);
  country_page : string → result CountryPage;
  write_json : string → result ();
  db_raises : db_step → bool
}.

(** ** Extractor: [get_country_list] *)

Definition BASE_URL : string := "https://data.worldbank.org".
Definition RAW_DIR : string := "data/raw".
Definition INDICATOR_CATEGORIES : list string :=
  ["social"; "economic"; "environment"; "institutions"].

Record CountryLink := mkCountryLink {
  l_url : string;
  l_code : string;
  l_name : string
}.

(** [re.sub(r'[^a-zA-Z0-9\-]', '', ...)] *)
Definition code_char (c : ascii) : bool := Text.is_alnum c || Ascii.eqb c "-".

(** Lines 61-62. *)
Definition derive_code (href : string) : string :=
  let last_segment := List.last (Text.split_on "/" href) EmptyString in
  let country_code := default EmptyString (head (Text.split_on "?" last_segment)) in
  Text.filter code_char country_code.

(** Lines 57-68: the candidate for one link, if its target is a country path. *)
Definition candidate (link : Anchor) : option CountryLink :=
  let href := a_href link in
  if negb (Text.is_empty href) && String.prefix "/country/" href
  then Some (mkCountryLink (BASE_URL +:+ href) (derive_code href) (Text.strip (a_text link)))
  else None.

Definition candidates (anchors : list Anchor) : list CountryLink := omap candidate anchors.

(** Body of the loop of lines 73-76 over [(unique_links, seen_codes)]. *)
Definition keep_unique (st : list CountryLink * gset string) (country : CountryLink) :
    list CountryLink * gset string :=
  if bool_decide (l_code country ∉ st.2) && negb (Text.is_empty (l_name country))
  then (st.1 ++ [country], st.2 ∪ {[ l_code country ]})
  else st.

Definition unique_links (country_links : list CountryLink) : list CountryLink :=
  (fold_left keep_unique country_links ([], ∅)).1.

(** The [try] block of [get_country_list]. *)
Definition country_list_body (w : World) : result (list CountryLink) :=
  anchors ← countries_page w;
  let found := unique_links (candidates anchors) in
  _ ← write_json w (RAW_DIR +:+ "/country_list.json");
  mret found.

Definition get_country_list (w : World) : list CountryLink :=
  match country_list_body w with
  | Ok found => found
  | Raise _ => []
  end.

(** ** Extractor: [get_country_data] *)

(** [re.search(r'\((\d{4})\)', value_text)] followed by [int(group(1))]:
    the leftmost parenthesised run of exactly four digits. *)
Fixpoint search_year (s : string) : option Z :=
  match s with
  | EmptyString => None
  | String c s' =>
      match s with
      | String "(" (String d1 (String d2 (String d3 (String d4 (String ")" _))))) =>
          if Text.is_digit d1 && Text.is_digit d2 && Text.is_digit d3 && Text.is_digit d4
          then Some (1000 * Text.digit_val d1 + 100 * Text.digit_val d2
                     + 10 * Text.digit_val d3 + Text.digit_val d4)
          else search_year s'
      | _ => search_year s'
      end
  end.

(** [re.sub(r'[^a-zA-Z0-9]', '_', indicator_name).lower()] *)
Definition slug (indicator_name : string) : string :=
  Text.lower (Text.map (λ c, if Text.is_alnum c then c else "_"%char) indicator_name).

(** Lines 140-156, from the stripped texts of the two sub-elements. *)
Definition extract_indicator (indicator_name value_text : string) : Indicator :=
  let year := default 2023 (search_year value_text) in
  let indicator_code := slug indicator_name in
  let year_text := "(" +:+ Text.of_nat (Z.to_nat year) +:+ ")" in
  mkIndicator indicator_name indicator_code
    (Some (PyStr (Text.strip (Text.remove_all year_text value_text 0))))
    (Some year).

(** Lines 136-156: a row contributes when both sub-elements are found. *)
Definition extract_row (element : RowElement) : option Indicator :=
  match r_name_text element, r_value_text element with
  | Some name_text, Some value_text =>
      Some (extract_indicator (Text.strip name_text) (Text.strip value_text))
  | _, _ => None
  end.

(** Lines 127-156 for one category. *)
Definition category_indicators (page : CountryPage) (category : string) : list Indicator :=
  section ← p_sections page;
  if Text.contains (Text.lower category) (Text.lower (s_text section))
  then omap extract_row (s_rows section)
  else [].

(** The [try] block of [get_country_data]. *)
Definition country_data_body (w : World) (country_url country_code country_name : string) :
    result CountryData :=
  page ← country_page w country_url;
  let country_data :=
    mkCountryData country_name country_code country_url
      ((λ category, (category, category_indicators page category)) <$> INDICATOR_CATEGORIES)
      (Text.strip <$> p_region_next page)
      (Text.strip <$> p_income_next page)
      None in
  _ ← write_json w (RAW_DIR +:+ "/" +:+ country_code +:+ ".json");
  mret country_data.

Definition get_country_data (w : World) (country_url country_code country_name : string) :
    option CountryData :=
  match country_data_body w country_url country_code country_name with
  | Ok country_data => Some country_data
  | Raise _ => None
  end.

(** ** Loader: [create_database_from_data] *)

(** The persisted tables, on which the schema statements have run (a table
    that does not exist yet is an empty one). *)
Record Store := mkStore {
  tbl_countries : list CountryRow;
  tbl_indicators : list IndicatorRow;
  tbl_indicator_values : list ValueRow
}.

(** Database code reads and writes the store and may raise. *)
Definition DB (A : Type) : Type := Store → result A * Store.

#[export] Instance DB_ret : MRet DB := λ A a db, (Ok a, db).
#[export] Instance DB_bind : MBind DB := λ A B k m db,
  match m db with
  | (Ok a, db') => k a db'
  | (Raise e, db') => (Raise e, db')
  end.

(** A statement that leaves the rows alone ([CREATE TABLE IF NOT EXISTS],
    [CREATE INDEX IF NOT EXISTS], [connect]). *)
Definition execute (w : World) (step : db_step) : DB () := λ db,
  if db_raises w step then (Raise DatabaseError, db) else (Ok (), db).

(** [df.to_sql(table, conn, if_exists="replace", index=False)]: the table is
    dropped and rewritten with the rows of the frame.  A raising write is
    modelled as leaving the table as it was. *)
Definition to_sql (w : World) (step : db_step) (write : Store → Store) : DB () := λ db,
  if db_raises w step then (Raise DatabaseError, db) else (Ok (), write db).

Definition set_countries (rows : list CountryRow) (db : Store) : Store :=
  mkStore rows (tbl_indicators db) (tbl_indicator_values db).
Definition set_indicators (rows : list IndicatorRow) (db : Store) : Store :=
  mkStore (tbl_countries db) rows (tbl_indicator_values db).
Definition set_indicator_values (rows : list ValueRow) (db : Store) : Store :=
  mkStore (tbl_countries db) (tbl_indicators db) rows.

(** [df.empty], and [not l] for a list. *)
Definition df_empty {A} (rows : list A) : bool :=
  match rows with [] => true | _ => false end.

(** The [try] block, lines 94-170. *)
Definition create_database_body (w : World)
    (countries : list CountryRow) (indicators : list IndicatorRow)
    (indicator_values : list ValueRow) : DB () :=
  execute w StepConnect;;
  execute w StepSchema;;
  to_sql w StepCountries (set_countries countries);;
  (if negb (df_empty indicators)
   then to_sql w StepIndicators (set_indicators indicators)
   else mret ());;
  (if negb (df_empty indicator_values)
   then to_sql w StepValues (set_indicator_values indicator_values)
   else mret ());;
  execute w StepIndexes.

Definition create_database_from_data (w : World) (db : Store)
    (countries : list CountryRow) (indicators : list IndicatorRow)
    (indicator_values : list ValueRow) : bool * Store :=
  match create_database_body w countries indicators indicator_values db with
  | (Ok _, db') => (true, db')
  | (Raise _, db') => (false, db')
  end.

(** ** Pipeline: [setup_data] and the command line *)

(** [l[:limit]] *)
Definition py_slice_to {A} (limit : Z) (l : list A) : list A :=
  if 0 <=? limit then take (Z.to_nat limit) l
  else take (length l - Z.to_nat (- limit)) l.

(** Body of the loop of lines 37-40. *)
Definition collect_country (w : World) (countries_data : list CountryData)
    (country : CountryLink) : list CountryData :=
  match get_country_data w (l_url country) (l_code country) (l_name country) with
  | Some country_data => countries_data ++ [country_data]
  | None => countries_data
  end.

Definition setup_data (w : World) (db : Store) (limit : Z) : bool * Store :=
  let countries := get_country_list w in
  if df_empty countries then (false, db)
  else
    let countries_data := fold_left (collect_country w) (py_slice_to limit countries) [] in
    if df_empty countries_data then (false, db)
    else
      let tables := process_data_for_db countries_data in
      create_database_from_data w db
        (t_countries tables) (t_indicators tables) (t_indicator_values tables).

(** Decimal digits, single underscores allowed between digits. *)
Fixpoint scan_int (s : string) (after_digit : bool) (acc : Z) : option Z :=
  match s with
  | EmptyString => if after_digit then Some acc else None
  | String c s' =>
      if Text.is_digit c then scan_int s' true (10 * acc + Text.digit_val c)
      else if Ascii.eqb c "_" then
        if after_digit then scan_int s' false acc else None
      else None
  end.

(** [int(s)] for a text; [None] stands for [ValueError]. *)
Definition py_int (s : string) : option Z :=
  match Text.strip s with
  | String "-" digits => Z.opp <$> scan_int digits false 0
  | String "+" digits => scan_int digits false 0
  | digits => scan_int digits false 0
  end.

(** Lines 54-59 of the setup script. *)
Definition parse_limit (argv : list string) : Z :=
  match argv with
  | _ :: arg :: _ => default 10 (py_int arg)
  | _ => 10
  end.

(** Lines 52-67: the process exit status and the store it leaves. *)
Definition main (w : World) (db : Store) (argv : list string) : Z * Store :=
  let limit := parse_limit argv in
  let '(success, db') := setup_data w db limit in
  (if success then 0 else 1, db').

(** ** Query service: [get_country_profile] *)

(** A row of the join of [indicator_values] with [indicators]. *)
Record JoinedRow := mkJoinedRow {
  j_indicator_code : string;
  j_name : string;
  j_category : option string;
  j_year : Z;
  j_value : Q
}.

Definition join_row (i : IndicatorRow) (iv : ValueRow) : JoinedRow :=
  mkJoinedRow (i_indicator_code i) (i_name i) (i_category i) (v_year iv) (v_value iv).

(** [FROM indicator_values iv JOIN indicators i
     ON iv.indicator_code = i.indicator_code WHERE iv.country_code = ?],
    enumerated in row order of [indicator_values], then of [indicators]. *)
Definition joined (db : Store) (country_code : string) : list JoinedRow :=
  iv ← tbl_indicator_values db;
  if decide (v_country_code iv = country_code) then
    i ← tbl_indicators db;
    if decide (v_indicator_code iv = i_indicator_code i) then [join_row i iv] else []
  else [].

(** Stable ordering: [x] goes after the rows strictly before it and in front
    of its equals, so rows with equal keys keep their relative order. *)
Fixpoint insert_by {A} (before : A → A → bool) (x : A) (l : list A) : list A :=
  match l with
  | [] => [x]
  | y :: l' => if before y x then y :: insert_by before x l' else x :: l
  end.

Definition order_by {A} (before : A → A → bool) (l : list A) : list A :=
  foldr (insert_by before) [] l.

(** [ORDER BY iv.year DESC] *)
Definition year_desc (a b : JoinedRow) : bool := j_year b <? j_year a.

(** [ROW_NUMBER() OVER (PARTITION BY i.indicator_code ORDER BY iv.year DESC)]:
    every joined row with its rank inside its partition.  SQL leaves the
    order among rows of equal year open; here they keep the order in which
    the join enumerates them, that is the row order of the store. *)
Definition ranked_indicators (db : Store) (country_code : string) : list (JoinedRow * nat) :=
  let rows := joined db country_code in
  code ← remove_dups (j_indicator_code <$> rows);
  imap (λ k row, (row, S k))
       (order_by year_desc (filter (λ row, j_indicator_code row = code) rows)).

(** [ORDER BY category, name]: NULL sorts first, texts compare bytewise. *)
Definition category_name_before (a b : JoinedRow) : bool :=
  match j_category a, j_category b with
  | None, None => String.ltb (j_name a) (j_name b)
  | None, Some _ => true
  | Some _, None => false
  | Some ca, Some cb =>
      match String.compare ca cb with
      | Lt => true
      | Eq => String.ltb (j_name a) (j_name b)
      | Gt => false
      end
  end.

(** The rows the query of lines 175-203 returns. *)
Definition profile_rows (db : Store) (country_code : string) : list JoinedRow :=
  order_by category_name_before
    (fst <$> filter (λ ranked, ranked.2 = 1%nat) (ranked_indicators db country_code)).

Record ProfileEntry := mkProfileEntry {
  e_indicator_code : string;
  e_name : string;
  e_value : Q;
  e_year : Z
}.

Definition profile_entry (indicator : JoinedRow) : ProfileEntry :=
  mkProfileEntry (j_indicator_code indicator) (j_name indicator)
                 (j_value indicator) (j_year indicator).

(** [indicator["category"] or "other"] *)
Definition category_or_other (category : option string) : string :=
  match category with
  | None => "other"
  | Some c => if Text.is_empty c then "other" else c
  end.

(** Body of the loop of lines 210-221 over the dict [categories]. *)
Definition add_to_profile (categories : gmap string (list ProfileEntry))
    (indicator : JoinedRow) : gmap string (list ProfileEntry) :=
  let category := category_or_other (j_category indicator) in
  let categories :=
    match categories !! category with
    | None => <[category := []]> categories
    | Some _ => categories
    end in
  <[category := default [] (categories !! category) ++ [profile_entry indicator]]> categories.

Inductive response (A : Type) :=
  | Response (body : A)
  | HTTPException (status_code : Z).
Arguments Response {A} body.
Arguments HTTPException {A} status_code.

Definition get_country_profile (db : Store) (country_code : string) :
    response (CountryRow * gmap string (list ProfileEntry)) :=
  match List.find (λ c, bool_decide (c_country_code c = country_code)) (tbl_countries db) with
  | None => HTTPException 404
  | Some country =>
      Response (country, fold_left add_to_profile (profile_rows db country_code) ∅)
  end.

(** ** Specification predicates and sample inputs *)

(** A country page whose only section mentions two category names. *)
Definition mixed_section_page : CountryPage :=
  mkCountryPage None None
    [ mkSectionElement "Social and economic indicators"
        [ mkRowElement (Some "GDP") (Some "1,444.7 (2020)") ] ].

(** The record [get_country_data] builds from that page: the same row
    under both categories. *)
Definition brazil_twice : CountryData :=
  mkCountryData "Brazil" "BRA" "https://data.worldbank.org/country/BRA"
    [ ("social",       [mkIndicator "GDP" "gdp" (Some (PyStr "1,444.7")) (Some 2020)]);
      ("economic",     [mkIndicator "GDP" "gdp" (Some (PyStr "1,444.7")) (Some 2020)]);
      ("environment",  []);
      ("institutions", []) ]
    None None None.

(** Two countries list the same code under different names and categories. *)
Definition two_names : list CountryData :=
  [ mkCountryData "Brazil" "BRA" "u1"
      [ ("economic", [mkIndicator "GDP" "gdp" (Some (PyStr "1")) (Some 2020)]) ]
      None None None;
    mkCountryData "Chile" "CHL" "u2"
      [ ("social", [mkIndicator "G.D.P." "gdp" (Some (PyStr "2")) (Some 2021)]) ]
      None None None ].

Definition named (c : CountryLink) : Prop := l_name c ≠ "".

(** [c] sits in [cands] behind [before], and no candidate in front of it
    with the same code has a display name. *)
Definition first_named (cands : list CountryLink) (c : CountryLink) : Prop :=
  ∃ before after, cands = before ++ c :: after ∧ named c ∧
    ∀ c', c' ∈ before → l_code c' = l_code c → l_name c' = "".


(** The reading "whatever survives is the first-seen candidate of its code". *)
Definition first_seen_survives (cands : list CountryLink) : Prop :=
  ∀ c, c ∈ unique_links cands →
    ∃ before after, cands = before ++ c :: after ∧
      (l_code c ∉ (l_code <$> before)).

(** A country page linked twice: first by a flag image (no text), then by
    its name. *)
Definition flag_then_name : list Anchor :=
  [ mkAnchor "/country/brazil?view=chart" "";
    mkAnchor "/country/brazil?view=chart" "Brazil" ].

(** A world in which nothing fails, with the given pages. *)
Definition calm_world (anchors : list Anchor) (page : string → result CountryPage) : World :=
  mkWorld (Ok anchors) page (λ _, Ok ()) (λ _, false).

(** The record of the end-to-end scenario as the spec writes it: the year
    still inside the value text, no [year] field. *)
Definition scenario_record_as_written : CountryData :=
  mkCountryData "Brazil" "BRA" ""
    [ ("economic", [mkIndicator "GDP" "gdp" (Some (PyStr "1,444.7 (2020)")) None]) ]
    None None None.

(** The same record as the extractor builds it from the row texts
    ["GDP"] and ["1,444.7 (2020)"]. *)
Definition scenario_record_extracted : CountryData :=
  mkCountryData "Brazil" "BRA" ""
    [ ("economic", [extract_indicator "GDP" "1,444.7 (2020)"]) ]
    None None None.

(** The reading "after a successful load every table holds exactly the
    supplied collection". *)
Definition load_replaces_all (w : World) (db : Store)
    (cs : list CountryRow) (ids : list IndicatorRow) (vs : list ValueRow) : Prop :=
  ∀ db', create_database_from_data w db cs ids vs = (true, db') →
    tbl_countries db' = cs ∧ tbl_indicators db' = ids ∧ tbl_indicator_values db' = vs.

Definition brazil_row : CountryRow :=
  mkCountryRow "BRA" "Brazil" None None None (Some "br") (Some "BRA").
Definition gdp_row : IndicatorRow :=
  mkIndicatorRow "gdp" "GDP" (Some "economic") "" "Banco Mundial".
Definition gdp_2020 : ValueRow := mkValueRow "BRA" "gdp" 2020 (Qmake 14447 10).

(** A store left by an earlier run. *)
Definition earlier_store : Store := mkStore [brazil_row] [gdp_row] [gdp_2020].

(** The first among the elements of greatest key. *)
Fixpoint first_max {A} (key : A → Z) (l : list A) : option A :=
  match l with
  | [] => None
  | x :: l' =>
      match first_max key l' with
      | Some m => if key x <? key m then Some m else Some x
      | None => Some x
      end
  end.

(** The later of two candidates wins only with a strictly greater key. *)
Definition later_max {A} (key : A → Z) (o1 o2 : option A) : option A :=
  match o1, o2 with
  | Some m1, Some m2 => if key m1 <? key m2 then Some m2 else Some m1
  | Some m1, None => Some m1
  | None, o => o
  end.

(** The store holds a description of indicator [code] and a value of it for
    the country. *)
Definition has_values (db : Store) (country_code code : string) : Prop :=
  ∃ iv i, iv ∈ tbl_indicator_values db ∧ i ∈ tbl_indicators db ∧
    v_country_code iv = country_code ∧ v_indicator_code iv = code ∧
    i_indicator_code i = code.

Definition value_of (country_code code : string) (r : ValueRow) : Prop :=
  v_country_code r = country_code ∧ v_indicator_code r = code.

(** [iv] is the value of greatest year of indicator [code] for the country,
    and among the rows of that year the first in table order. *)
Definition latest_value (db : Store) (country_code code : string) (iv : ValueRow) : Prop :=
  ∃ before after, tbl_indicator_values db = before ++ iv :: after ∧
    value_of country_code code iv ∧
    (∀ r, r ∈ before → value_of country_code code r → v_year r < v_year iv) ∧
    (∀ r, r ∈ after → value_of country_code code r → v_year r ≤ v_year iv).

(** [i] is the first row of [indicators] with code [code]. *)
Definition first_indicator (db : Store) (code : string) (i : IndicatorRow) : Prop :=
  ∃ before after, tbl_indicators db = before ++ i :: after ∧
    i_indicator_code i = code ∧ (code ∉ (i_indicator_code <$> before)).

(** The reading "the bucket is the category, or [other] when it is null". *)
Definition category_or_other_when_null (category : option string) : string :=
  match category with
  | None => "other"
  | Some c => c
  end.

Definition grouped_by_category_unless_null (db : Store) (country_code : string) : Prop :=
  ∀ country profile i iv,
    get_country_profile db country_code = Response (country, profile) →
    i ∈ tbl_indicators db → iv ∈ tbl_indicator_values db →
    v_country_code iv = country_code → v_indicator_code iv = i_indicator_code i →
    ∃ entries, profile !! category_or_other_when_null (i_category i) = Some entries ∧
      ∃ e, e ∈ entries ∧ e_indicator_code e = i_indicator_code i.

(** A store in which an indicator was loaded with an empty category text. *)
Definition uncategorised_store : Store :=
  mkStore [brazil_row]
          [mkIndicatorRow "gdp" "GDP" (Some "") "" "Banco Mundial"]
          [gdp_2020].

(** The rows left by [WHERE rank = 1], before the final ordering. *)
Definition top_rows (db : Store) (country_code : string) : list JoinedRow :=
  code ← remove_dups (j_indicator_code <$> joined db country_code);
  option_list (first_max j_year
    (filter (λ row, j_indicator_code row = code) (joined db country_code))).

(** The row is filed under key [k] of the profile. *)
Definition in_bucket (k : string) (row : JoinedRow) : Prop :=
  category_or_other (j_category row) = k.

#[export] Instance in_bucket_dec k row : Decision (in_bucket k row).
Proof. unfold in_bucket. apply _. Defined.

#[export] Instance value_of_dec country_code code r : Decision (value_of country_code code r).
Proof. unfold value_of. apply _. Defined.

(** ** Query service: the other endpoints *)

(** The lookup all country endpoints start with:
    [SELECT * FROM countries WHERE country_code = ?] and [fetchone()]. *)
Definition find_country (db : Store) (country_code : string) : option CountryRow :=
  List.find (λ c, bool_decide (c_country_code c = country_code)) (tbl_countries db).

(** [get_country], lines 74-91. *)
Definition get_country (db : Store) (country_code : string) : response CountryRow :=
  match find_country db country_code with
  | None => HTTPException 404
  | Some country => Response country
  end.

(** An integer parameter handed to SQLite has to fit 64 bits; [sqlite3]
    raises [OverflowError] otherwise and the request fails. *)
Definition int64 (n : Z) : bool := (- 2 ^ 63 <=? n) && (n <? 2 ^ 63).

Inductive query_result (A : Type) :=
  | Returned (body : A)
  | OverflowError.
Arguments Returned {A} body.
Arguments OverflowError {A}.

(** [LIMIT ? OFFSET ?]: a negative limit is no limit, a negative offset is
    none. *)
Definition limit_offset {A} (limit offset : Z) (rows : list A) : list A :=
  let rest := drop (Z.to_nat offset) rows in
  if limit <? 0 then rest else take (Z.to_nat limit) rest.

(** The columns [country_code, name, region]. *)
Record CountrySummary := mkCountrySummary {
  cs_country_code : string;
  cs_name : string;
  cs_region : option string
}.

Definition summary (c : CountryRow) : CountrySummary :=
  mkCountrySummary (c_country_code c) (c_name c) (c_region c).

(** [ORDER BY name] *)
Definition name_before (a b : CountryRow) : bool := String.ltb (c_name a) (c_name b).

Record CountryListing := mkCountryListing {
  total : Z;
  data : list CountrySummary
}.

(** [list_countries], lines 55-72. *)
Definition list_countries (db : Store) (skip limit : Z) : query_result CountryListing :=
  if int64 limit && int64 skip then
    Returned (mkCountryListing
      (Z.of_nat (length (tbl_countries db)))
      (summary <$> limit_offset limit skip (order_by name_before (tbl_countries db))))
  else OverflowError.

(** [ORDER BY i.name, iv.year DESC] *)
Definition name_year_before (a b : JoinedRow) : bool :=
  match String.compare (j_name a) (j_name b) with
  | Lt => true
  | Eq => j_year b <? j_year a
  | Gt => false
  end.

(** [if category: query += " AND i.category = ?"]: an absent or empty
    parameter does not filter; a NULL category matches no parameter. *)
Definition indicator_rows (db : Store) (country_code : string)
    (category : option string) : list JoinedRow :=
  let rows :=
    match category with
    | None => joined db country_code
    | Some c =>
        if Text.is_empty c then joined db country_code
        else filter (λ row, j_category row = Some c) (joined db country_code)
    end in
  order_by name_year_before rows.

(** One value of the dict [indicators] of lines 137-152. *)
Record IndicatorSeries := mkIndicatorSeries {
  is_indicator_code : string;
  is_name : string;
  is_category : option string;
  is_values : list (Z * Q)
}.

Definition append_value (row : JoinedRow) (s : IndicatorSeries) : IndicatorSeries :=
  if decide (is_indicator_code s = j_indicator_code row)
  then mkIndicatorSeries (is_indicator_code s) (is_name s) (is_category s)
         (is_values s ++ [(j_year row, j_value row)])
  else s.

(** Body of the loop of lines 138-152; the dict keeps its keys in insertion
    order. *)
Definition add_to_indicators (indicators : list IndicatorSeries) (row : JoinedRow) :
    list IndicatorSeries :=
  let indicators :=
    if existsb (λ s, String.eqb (is_indicator_code s) (j_indicator_code row)) indicators
    then indicators
    else indicators ++
         [mkIndicatorSeries (j_indicator_code row) (j_name row) (j_category row) []] in
  append_value row <$> indicators.

(** [get_country_indicators], lines 93-157. *)
Definition get_country_indicators (db : Store) (country_code : string)
    (category : option string) : response (CountryRow * list IndicatorSeries) :=
  match find_country db country_code with
  | None => HTTPException 404
  | Some country =>
      Response (country,
                fold_left add_to_indicators (indicator_rows db country_code category) [])
  end.

(** [SELECT category, COUNT( * ) as count FROM indicators GROUP BY category
     ORDER BY count DESC]; NULL is a group of its own. *)
Definition count_desc (a b : option string * nat) : bool := (b.2 <? a.2)%nat.

Definition get_indicator_categories (db : Store) : list (option string * nat) :=
  let categories := i_category <$> tbl_indicators db in
  order_by count_desc
    ((λ c, (c, length (filter (λ c', c' = c) categories))) <$> remove_dups categories).

(** ** Further specification predicates *)

(** [rest] starts with a parenthesised run of four digits of value [y]. *)
Definition year_here (rest : string) (y : Z) : Prop :=
  ∃ d1 d2 d3 d4 post,
    rest = String "(" (String d1 (String d2 (String d3 (String d4 (String ")" post))))) ∧
    Text.is_digit d1 = true ∧ Text.is_digit d2 = true ∧
    Text.is_digit d3 = true ∧ Text.is_digit d4 = true ∧
    y = 1000 * Text.digit_val d1 + 100 * Text.digit_val d2
        + 10 * Text.digit_val d3 + Text.digit_val d4.

(** The alphabet of indicator codes. *)
Definition slug_char (c : ascii) : bool :=
  Text.is_lower c || Text.is_digit c || Ascii.eqb c "_".

(** The year of a parenthesised four-digit group at the very start of [s]. *)
Definition paren_year (s : string) : option Z :=
  match s with
  | String "(" (String d1 (String d2 (String d3 (String d4 (String ")" _))))) =>
      if Text.is_digit d1 && Text.is_digit d2 && Text.is_digit d3 && Text.is_digit d4
      then Some (1000 * Text.digit_val d1 + 100 * Text.digit_val d2
                 + 10 * Text.digit_val d3 + Text.digit_val d4)
      else None
  | _ => None
  end.

(** No parenthesised four-digit group starts before position [n] of [s]. *)
Definition no_year_before (s : string) (n : nat) : Prop :=
  ∀ pre rest y, s = pre +:+ rest → (String.length pre < n)%nat → ¬ year_here rest y.

(** The definitions the deduplication adds for a run of occurrences, given
    the codes already defined. *)
Fixpoint first_definitions (seen : gset string) (occs : list (string * Indicator)) :
    list IndicatorRow :=
  match occs with
  | [] => []
  | o :: occs' =>
      if decide (occ_code o ∈ seen) then first_definitions seen occs'
      else new_indicator o.1 o.2 :: first_definitions (seen ∪ {[ occ_code o ]}) occs'
  end.

(** [c] is the first row of [countries] with code [country_code]. *)
Definition first_country (db : Store) (country_code : string) (c : CountryRow) : Prop :=
  ∃ before after, tbl_countries db = before ++ c :: after ∧
    c_country_code c = country_code ∧
    (country_code ∉ (c_country_code <$> before)).

(** How many rows a page holds, of [rows] rows in all. *)
Definition page_length (rows skip limit : Z) : Z :=
  let available := Z.max 0 (rows - Z.max 0 skip) in
  if limit <? 0 then available else Z.min limit available.

(** How often [c] occurs in [l]. *)
Definition occurrences_of {A} `{!EqDecision A} (l : list A) (c : A) : nat :=
  length (filter (λ c', c' = c) l).

(** The (year, value) pair a joined row contributes to its series. *)
Definition year_value (row : JoinedRow) : Z * Q := (j_year row, j_value row).

(** A series already in the dict, after the rows were added to it. *)
Definition extend_series (rows : list JoinedRow) (s : IndicatorSeries) : IndicatorSeries :=
  mkIndicatorSeries (is_indicator_code s) (is_name s) (is_category s)
    (is_values s ++
     (year_value <$> filter (λ r, j_indicator_code r = is_indicator_code s) rows)).

(** The series the rows add to the dict, given the codes already in it. *)
Fixpoint new_series (seen : gset string) (rows : list JoinedRow) : list IndicatorSeries :=
  match rows with
  | [] => []
  | r :: rows' =>
      if decide (j_indicator_code r ∈ seen) then new_series seen rows'
      else
        mkIndicatorSeries (j_indicator_code r) (j_name r) (j_category r)
          (year_value <$> filter (λ r', j_indicator_code r' = j_indicator_code r) rows)
        :: new_series (seen ∪ {[ j_indicator_code r ]}) rows'
  end.

(** The optional category parameter lets the indicator row through. *)
Definition category_passes (category : option string) (i : IndicatorRow) : Prop :=
  match category with
  | None => True
  | Some c => c = "" ∨ i_category i = Some c
  end.

Definition gdp_2019 : ValueRow := mkValueRow "BRA" "gdp" 2019 (Qmake 18731 10).

(** A store with two years of one indicator, the older one stored first. *)
Definition two_years_store : Store := mkStore [brazil_row] [gdp_row] [gdp_2019; gdp_2020].

(** * Properties *)

(** ** Facts about the text primitives *)

Module TextFacts.

Lemma filter_all p s : Text.all p (Text.filter p s) = true.
Proof.
  induction s as [|c s IH]; simpl; [done|].
  destruct (p c) eqn:E; simpl; [by rewrite E | done].
Qed.



Lemma length_take n s : (n ≤ String.length s)%nat → String.length (Text.take n s) = n.
Proof.
  revert s; induction n as [|n IH]; intros [|c s]; simpl; try lia.
  intros H. rewrite IH; lia.
Qed.

Lemma length_map f s : String.length (Text.map f s) = String.length s.
Proof. induction s; simpl; congruence. Qed.

End TextFacts.

Section NormalizerFacts.

Lemma process_indicator_fold cc cat inds st :
  fold_left (process_indicator cc cat) inds st =
  mkTables (t_countries st)
    (fold_left add_indicator ((λ i, (cat, i)) <$> inds) (t_indicators st))
    (t_indicator_values st ++ omap (value_row_of cc) inds).
Proof.
  revert st. induction inds as [|i inds IH]; intros st; simpl.
  - rewrite app_nil_r. by destruct st.
  - rewrite IH. unfold process_indicator at 1 2 3; simpl.
    unfold add_indicator at 2; unfold occ_code; simpl.
    f_equal. destruct (value_row_of cc i); simpl; [|done].
    by rewrite <- app_assoc.
Qed.

Lemma process_category_fold cc entries st :
  fold_left (process_category cc) entries st =
  mkTables (t_countries st)
    (fold_left add_indicator
       (entry ← entries; (λ i, (entry.1, i)) <$> entry.2) (t_indicators st))
    (t_indicator_values st ++
       (entry ← entries; omap (value_row_of cc) entry.2)).
Proof.
  revert st. induction entries as [|e entries IH]; intros st; simpl.
  - rewrite app_nil_r. by destruct st.
  - rewrite IH. unfold process_category at 1 2 3.
    rewrite process_indicator_fold; simpl.
    rewrite fold_left_app, <- app_assoc. done.
Qed.

Lemma process_country_fold data st :
  fold_left process_country data st =
  mkTables (t_countries st ++ (country_row <$> data))
    (fold_left add_indicator (occurrences data) (t_indicators st))
    (t_indicator_values st ++ value_rows data).
Proof.
  revert st. induction data as [|c data IH]; intros st; simpl.
  - rewrite !app_nil_r. by destruct st.
  - rewrite IH. unfold process_country at 1 2 3.
    rewrite process_category_fold; simpl.
    unfold occurrences, value_rows; simpl.
    rewrite fold_left_app, <- !app_assoc. done.
Qed.

Lemma process_data_for_db_eq data :
  process_data_for_db data =
  mkTables (country_row <$> data)
    (fold_left add_indicator (occurrences data) [])
    (value_rows data).
Proof. unfold process_data_for_db. by rewrite process_country_fold. Qed.

Lemma indicator_exists_spec indicators code :
  indicator_exists indicators code = true ↔
  code ∈ (i_indicator_code <$> indicators).
Proof.
  unfold indicator_exists. rewrite existsb_exists, list_elem_of_fmap.
  split.
  - intros (x & Hx & Heq%String.eqb_eq). exists x.
    split; [done|]. by apply list_elem_of_In.
  - intros (x & -> & Hx). exists x.
    split; [by apply list_elem_of_In | apply String.eqb_refl].
Qed.

Lemma add_indicator_old acc o :
  indicator_exists acc (occ_code o) = true → add_indicator acc o = acc.
Proof. unfold add_indicator. by intros ->. Qed.

Lemma add_indicator_new acc o :
  indicator_exists acc (occ_code o) = false →
  add_indicator acc o = acc ++ [new_indicator o.1 o.2].
Proof. unfold add_indicator. by intros ->. Qed.

(** What the deduplicating fold keeps: the starting rows, then one row
    for each first occurrence of a code not yet present. *)
Lemma add_indicator_fold_spec occs acc :
  NoDup (i_indicator_code <$> acc) →
  NoDup (i_indicator_code <$> fold_left add_indicator occs acc) ∧
  (∀ code, code ∈ (i_indicator_code <$> fold_left add_indicator occs acc) ↔
           code ∈ (i_indicator_code <$> acc) ∨ code ∈ (occ_code <$> occs)) ∧
  (∀ d, d ∈ fold_left add_indicator occs acc → d ∈ acc ∨
     ∃ before o after, occs = before ++ o :: after ∧
       (occ_code o ∉ (occ_code <$> before)) ∧
       (occ_code o ∉ (i_indicator_code <$> acc)) ∧
       d = new_indicator o.1 o.2).
Proof.
  revert acc. induction occs as [|o occs IH]; intros acc Hnd; cbn [fold_left].
  - split; [done|]. split; [|by left].
    intros code. rewrite fmap_nil, elem_of_nil. tauto.
  - destruct (indicator_exists acc (occ_code o)) eqn:E.
    + rewrite (add_indicator_old _ _ E).
      apply indicator_exists_spec in E.
      destruct (IH acc Hnd) as (H1 & H2 & H3).
      split; [done|]. split.
      * intros code. rewrite H2, fmap_cons, elem_of_cons.
        split; [tauto|]. intros [?|[->|?]]; tauto.
      * intros d Hd.
        destruct (H3 d Hd) as [?|(b & o' & a & -> & Hb & Ha & ->)]; [by left|right].
        exists (o :: b), o', a. split; [done|]. split; [|done].
        rewrite fmap_cons, not_elem_of_cons. split; [|done].
        intros Heq. apply Ha. by rewrite Heq.
    + rewrite (add_indicator_new _ _ E).
      assert (occ_code o ∉ (i_indicator_code <$> acc)) as Hnot.
      { intros Hin%indicator_exists_spec. congruence. }
      assert (NoDup (i_indicator_code <$> (acc ++ [new_indicator o.1 o.2]))) as Hnd'.
      { rewrite fmap_app. apply NoDup_app. split; [done|].
        split; [|apply NoDup_singleton].
        intros x Hx. rewrite list_fmap_singleton, list_elem_of_singleton.
        intros ->. done. }
      destruct (IH _ Hnd') as (H1 & H2 & H3).
      split; [done|]. split.
      * intros code.
        rewrite H2, fmap_app, elem_of_app, list_fmap_singleton,
          list_elem_of_singleton, fmap_cons, elem_of_cons.
        change (i_indicator_code (new_indicator o.1 o.2)) with (occ_code o).
        tauto.
      * intros d Hd.
        destruct (H3 d Hd) as [Hd'|(b & o' & a & -> & Hb & Ha & ->)].
        -- apply elem_of_app in Hd' as [?|Hs]; [by left|].
           apply list_elem_of_singleton in Hs as ->.
           right. exists [], o, occs. split; [done|].
           split; [|done]. rewrite fmap_nil. apply not_elem_of_nil.
        -- right. exists (o :: b), o', a. split; [done|].
           rewrite fmap_app, not_elem_of_app in Ha. destruct Ha as [Ha1 Ha2].
           split; [|done].
           rewrite fmap_cons, not_elem_of_cons. split; [|done].
           intros Heq. apply Ha2.
           rewrite list_fmap_singleton, list_elem_of_singleton.
           by rewrite Heq.
Qed.

Lemma filter_absent_key {A} (key : A → string) (l : list A) (k : string) :
  k ∉ (key <$> l) → filter (λ x, key x = k) l = [].
Proof.
  induction l as [|x l IH]; [done|].
  rewrite fmap_cons, not_elem_of_cons. intros [Hx Hl].
  rewrite filter_cons_False by congruence. auto.
Qed.

Lemma filter_unique_key {A} (key : A → string) (l : list A) (d : A) :
  NoDup (key <$> l) → d ∈ l →
  filter (λ x, key x = key d) l = [d].
Proof.
  induction l as [|x l IH]; intros Hnd Hin; [by apply elem_of_nil in Hin|].
  rewrite fmap_cons in Hnd. apply NoDup_cons in Hnd as [Hx Hnd].
  apply elem_of_cons in Hin as [->|Hin].
  - rewrite filter_cons_True by done. f_equal.
    by apply filter_absent_key.
  - rewrite filter_cons_False; [by apply IH|].
    intros Heq. apply Hx. rewrite Heq. by apply list_elem_of_fmap_2.
Qed.

Lemma value_rows_app d1 d2 :
  value_rows (d1 ++ d2) = value_rows d1 ++ value_rows d2.
Proof. unfold value_rows. apply bind_app. Qed.

Lemma countries_of_process data :
  t_countries (process_data_for_db data) = country_row <$> data.
Proof. by rewrite process_data_for_db_eq. Qed.

Lemma values_of_process data :
  t_indicator_values (process_data_for_db data) = value_rows data.
Proof. by rewrite process_data_for_db_eq. Qed.

Lemma indicators_of_process data :
  t_indicators (process_data_for_db data) =
  fold_left add_indicator (occurrences data) [].
Proof. by rewrite process_data_for_db_eq. Qed.




End NormalizerFacts.

(** ** The normalizer's outputs *)

(** C1: the triple (country_code, indicator_code, year) is meant to be unique
    across the emitted value rows (the schema declares it [UNIQUE]).  The
    normalizer appends one row per indicator occurrence without looking at the
    rows already emitted: on [brazil_twice], the record the extractor builds
    from a page section naming two categories, it emits the triple
    (BRA, gdp, 2020) twice. *)
Theorem process_data_repeats_triple :
  get_country_data (calm_world [] (λ _, Ok mixed_section_page))
    "https://data.worldbank.org/country/BRA" "BRA" "Brazil" = Some brazil_twice ∧
  t_indicator_values (process_data_for_db [brazil_twice]) =
    [ mkValueRow "BRA" "gdp" 2020 (Qmake 14447 10);
      mkValueRow "BRA" "gdp" 2020 (Qmake 14447 10) ] ∧
  ¬ NoDup (triple <$> t_indicator_values (process_data_for_db [brazil_twice])).
Proof.
  split; [reflexivity|]. split; [reflexivity|].
  intros Hnd. apply NoDup_cons in Hnd as [Hnotin _].
  apply Hnotin. vm_compute. apply list_elem_of_here.
Qed.





(** C5: for every indicator code occurring in the input, the normalizer
    retains exactly one indicator row with that code, and it carries the name
    and category of the first occurrence in iteration order (countries, then
    categories, then indicators); no row is retained for a code that does not
    occur. *)
Theorem process_data_first_indicator_wins (countries_data : list CountryData)
    (code : string) :
  code ∈ (occ_code <$> occurrences countries_data) →
  ∃ before category indicator after,
    occurrences countries_data = before ++ (category, indicator) :: after ∧
    ind_code indicator = code ∧
    (code ∉ (occ_code <$> before)) ∧
    filter (λ d, i_indicator_code d = code)
           (t_indicators (process_data_for_db countries_data)) =
      [ mkIndicatorRow code (ind_name indicator) (Some category) "" "Banco Mundial" ] ∧
    (∀ d, d ∈ t_indicators (process_data_for_db countries_data) →
          i_indicator_code d ∈ (occ_code <$> occurrences countries_data)).
Proof.
  intros Hin. rewrite indicators_of_process.
  destruct (add_indicator_fold_spec (occurrences countries_data) [])
    as (Hnd & Hcodes & Hrows); [apply NoDup_nil_2|].
  assert (∀ c, c ∈ (i_indicator_code <$>
                      fold_left add_indicator (occurrences countries_data) []) ↔
               c ∈ (occ_code <$> occurrences countries_data)) as Hcodes'.
  { intros c. rewrite Hcodes, fmap_nil, elem_of_nil. tauto. }
  apply Hcodes' in Hin as Hout.
  apply list_elem_of_fmap in Hout as (d & Hd & Hdin).
  destruct (Hrows d Hdin) as [Hnil|(before & [cat ind] & after & Hocc & Hb & _ & Hnew)];
    [by apply elem_of_nil in Hnil|].
  exists before, cat, ind, after. subst d. simpl in *. subst code.
  split; [done|]. split; [done|]. split; [exact Hb|].
  split.
  - exact (filter_unique_key i_indicator_code _ (new_indicator cat ind) Hnd Hdin).
  - intros d Hdin'. apply Hcodes'. by apply list_elem_of_fmap_2.
Qed.

Lemma process_data_first_indicator_wins_witness :
  filter (λ d, i_indicator_code d = "gdp")
         (t_indicators (process_data_for_db two_names)) =
    [ mkIndicatorRow "gdp" "GDP" (Some "economic") "" "Banco Mundial" ].
Proof.
  destruct (process_data_first_indicator_wins two_names "gdp")
    as (before & cat & ind & after & Hocc & Hcode & Hb & Hf & _).
  - vm_compute. apply list_elem_of_here.
  - destruct before as [|o before].
    + injection Hocc as <- <- _. exact Hf.
    + exfalso. apply Hb. injection Hocc as <- _.
      vm_compute. apply list_elem_of_here.
Defined.

(** ** Numeric coercion *)





(** ** The country-list extractor *)

Section CountryList.

Implicit Types (cands : list CountryLink) (seen : gset string).

Lemma is_empty_spec s : Text.is_empty s = true ↔ s = "".
Proof. by destruct s. Qed.

Lemma keep_unique_kept acc seen c :
  l_code c ∉ seen → named c →
  keep_unique (acc, seen) c = (acc ++ [c], seen ∪ {[ l_code c ]}).
Proof.
  intros Hc Hn. unfold keep_unique; simpl.
  rewrite bool_decide_eq_true_2 by done.
  destruct (l_name c) eqn:E; [by destruct Hn|]. done.
Qed.

Lemma keep_unique_skipped acc seen c :
  l_code c ∈ seen ∨ l_name c = "" →
  keep_unique (acc, seen) c = (acc, seen).
Proof.
  intros [Hc|Hn]; unfold keep_unique; simpl.
  - rewrite bool_decide_eq_false_2; [done|]. by intros H.
  - rewrite Hn. simpl. by rewrite andb_false_r.
Qed.

Lemma fold_keep_unique_spec cands acc seen :
  (∀ x, x ∈ seen ↔ x ∈ (l_code <$> acc)) →
  NoDup (l_code <$> acc) →
  ∃ rest,
    (fold_left keep_unique cands (acc, seen)).1 = acc ++ rest ∧
    NoDup (l_code <$> (acc ++ rest)) ∧
    rest `sublist_of` cands ∧
    ∀ c, c ∈ rest ↔
      ∃ before after, cands = before ++ c :: after ∧ named c ∧
        (l_code c ∉ (l_code <$> acc)) ∧
        ∀ c', c' ∈ before → l_code c' = l_code c → l_name c' = "".
Proof.
  revert acc seen. induction cands as [|c0 cands IH]; intros acc seen Hseen Hnd.
  - exists []. rewrite app_nil_r. repeat split; try done.
    + by intros ?%elem_of_nil.
    + intros (before & after & Heq & _). by destruct before.
  - cbn [fold_left].
    destruct (decide (l_code c0 ∈ seen ∨ l_name c0 = "")) as [Hskip|Hkeep].
    + rewrite (keep_unique_skipped _ _ _ Hskip).
      destruct (IH acc seen Hseen Hnd) as (rest & Hout & Hnd' & Hsub & Hmem).
      exists rest. split; [done|]. split; [done|].
      split; [by apply sublist_cons|].
      intros c. rewrite Hmem. split.
      * intros (b & a & -> & Hn & Hc & Hb).
        exists (c0 :: b), a. repeat split; try done.
        intros c' [->|Hin]%elem_of_cons Hcode; [|by apply Hb].
        destruct Hskip as [Hs|Hs]; [|done].
        exfalso. apply Hc. rewrite <- Hcode. by apply Hseen.
      * intros (before & a & Heq & Hn & Hc & Hb).
        destruct before as [|c1 b]; simplify_eq/=.
        -- exfalso. destruct Hskip as [Hs|Hs]; [|done].
           apply Hc. by apply Hseen.
        -- exists b, a. repeat split; try done.
           intros c' Hin. apply Hb. by apply list_elem_of_further.
    + assert (l_code c0 ∉ seen) as Hc0 by (intros ?; apply Hkeep; by left).
      assert (named c0) as Hn0 by (intros ?; apply Hkeep; by right).
      rewrite keep_unique_kept by done.
      assert (l_code c0 ∉ (l_code <$> acc)) as Hc0'.
      { intros H. by apply Hc0, Hseen. }
      destruct (IH (acc ++ [c0]) (seen ∪ {[ l_code c0 ]}))
        as (rest & Hout & Hnd' & Hsub & Hmem).
      { intros x. rewrite elem_of_union, elem_of_singleton, fmap_app, elem_of_app,
          list_fmap_singleton, list_elem_of_singleton, Hseen. done. }
      { rewrite fmap_app. apply NoDup_app. split; [done|].
        split; [|apply NoDup_singleton].
        intros x Hx. rewrite list_fmap_singleton, list_elem_of_singleton.
        by intros ->. }
      exists (c0 :: rest). rewrite <- app_assoc in Hout, Hnd'.
      split; [done|]. split; [done|].
      split; [by apply sublist_skip|].
      intros c. rewrite elem_of_cons, Hmem. split.
      * intros [->|(b & a & -> & Hn & Hc & Hb)].
        -- exists [], cands. repeat split; try done.
           by intros c' ?%elem_of_nil.
        -- rewrite fmap_app, not_elem_of_app, list_fmap_singleton,
             list_elem_of_singleton in Hc. destruct Hc as [Hc1 Hc2].
           exists (c0 :: b), a. repeat split; try done.
           intros c' [->|Hin]%elem_of_cons Hcode; [done|by apply Hb].
      * intros (before & a & Heq & Hn & Hc & Hb).
        destruct before as [|c1 b]; simplify_eq/=; [by left|right].
        exists b, a. repeat split; try done.
        -- rewrite fmap_app, not_elem_of_app, list_fmap_singleton,
             list_elem_of_singleton. split; [done|].
           intros Hcode. apply Hn0. apply Hb; [apply list_elem_of_here|done].
        -- intros c' Hin. apply Hb. by apply list_elem_of_further.
Qed.

Lemma unique_links_spec cands :
  NoDup (l_code <$> unique_links cands) ∧
  unique_links cands `sublist_of` cands ∧
  ∀ c, c ∈ unique_links cands ↔ first_named cands c.
Proof.
  destruct (fold_keep_unique_spec cands [] ∅) as (rest & Hout & Hnd & Hsub & Hmem).
  { intros x. rewrite fmap_nil, elem_of_nil. set_solver. }
  { apply NoDup_nil_2. }
  unfold unique_links. rewrite Hout. simpl in *.
  split; [done|]. split; [done|].
  intros c. rewrite Hmem. unfold first_named.
  split.
  - intros (b & a & ? & ? & _ & ?). by exists b, a.
  - intros (b & a & ? & ? & ?). exists b, a. repeat split; try done.
    apply not_elem_of_nil.
Qed.

End CountryList.

(** C4 as stated fails: when the first link to a country carries no text,
    it is passed over without its code being recorded, and a later link with
    the same code survives. *)
Lemma unique_links_later_candidate_survives :
  unique_links (candidates flag_then_name) =
    [ mkCountryLink "https://data.worldbank.org/country/brazil?view=chart" "brazil" "Brazil" ] ∧
  ¬ first_seen_survives (candidates flag_then_name).
Proof.
  split; [by vm_compute|].
  intros H.
  destruct (H (mkCountryLink "https://data.worldbank.org/country/brazil?view=chart"
                 "brazil" "Brazil")) as (before & after & Heq & Hnot).
  { vm_compute. apply list_elem_of_here. }
  destruct before as [|c before].
  - vm_compute in Heq. discriminate Heq.
  - apply Hnot. vm_compute in Heq. injection Heq as <- _.
    simpl. apply list_elem_of_here.
Qed.

(** C4 (amended): on every page the country list is the sequence of
    candidates that have a display name and are not preceded by a candidate
    with the same code that has one; codes are unique in it, and it keeps the
    candidates' order in the page markup. *)
Theorem get_country_list_first_named (w : World) (anchors : list Anchor) :
  countries_page w = Ok anchors →
  write_json w (RAW_DIR +:+ "/country_list.json") = Ok () →
  NoDup (l_code <$> get_country_list w) ∧
  get_country_list w `sublist_of` candidates anchors ∧
  (∀ c, c ∈ get_country_list w ↔ first_named (candidates anchors) c) ∧
  (∀ c, c ∈ get_country_list w → l_name c ≠ "") ∧
  (∀ link, link ∈ anchors →
     candidate link =
       if decide (a_href link ≠ "" ∧ String.prefix "/country/" (a_href link) = true)
       then Some (mkCountryLink (BASE_URL +:+ a_href link) (derive_code (a_href link))
                    (Text.strip (a_text link)))
       else None).
Proof.
  intros Hpage Hwrite.
  assert (get_country_list w = unique_links (candidates anchors)) as ->.
  { unfold get_country_list, country_list_body. rewrite Hpage. simpl.
    by rewrite Hwrite. }
  destruct (unique_links_spec (candidates anchors)) as (Hnd & Hsub & Hmem).
  split; [done|]. split; [done|]. split; [done|]. split.
  - intros c (_ & _ & _ & Hn & _)%Hmem. exact Hn.
  - intros link _. unfold candidate.
    destruct (decide _) as [[Hne Hp]|Hn].
    + rewrite Hp. by destruct (a_href link).
    + destruct (Text.is_empty (a_href link)) eqn:E; [done|].
      destruct (String.prefix "/country/" (a_href link)) eqn:P; [|done].
      exfalso. apply Hn. split; [|done].
      intros Heq. rewrite Heq in E. discriminate E.
Qed.

Lemma get_country_list_first_named_witness :
  get_country_list (calm_world flag_then_name (λ _, Raise RequestException))
    `sublist_of` candidates flag_then_name.
Proof.
  exact (proj1 (proj2 (get_country_list_first_named
    (calm_world flag_then_name (λ _, Raise RequestException)) flag_then_name
    eq_refl eq_refl))).
Defined.

(** ** Containment of scraping failures *)

Lemma collect_country_fold w links acc :
  fold_left (collect_country w) links acc =
  acc ++ omap (λ c, get_country_data w (l_url c) (l_code c) (l_name c)) links.
Proof.
  revert acc. induction links as [|c links IH]; intros acc; simpl.
  - by rewrite app_nil_r.
  - rewrite IH. unfold collect_country.
    destruct (get_country_data _ _ _ _); simpl; [|done].
    by rewrite <- app_assoc.
Qed.

(** C7: a failure inside country-list extraction makes [get_country_list]
    return the empty sequence; a failure inside the extraction of one country
    makes [get_country_data] return no record, and the collecting loop of the
    pipeline goes on with the remaining countries as if that country were not
    listed. *)
Theorem scraping_failures_contained (w : World) :
  (∀ e, country_list_body w = Raise e → get_country_list w = []) ∧
  (∀ e, countries_page w = Raise e → get_country_list w = []) ∧
  (∀ e, write_json w (RAW_DIR +:+ "/country_list.json") = Raise e →
        get_country_list w = []) ∧
  (∀ url code name e,
     country_data_body w url code name = Raise e →
     get_country_data w url code name = None) ∧
  (∀ url code name e,
     country_page w url = Raise e → get_country_data w url code name = None) ∧
  (∀ url code name e,
     write_json w (RAW_DIR +:+ "/" +:+ code +:+ ".json") = Raise e →
     get_country_data w url code name = None) ∧
  (∀ before country after,
     get_country_data w (l_url country) (l_code country) (l_name country) = None →
     fold_left (collect_country w) (before ++ country :: after) [] =
     fold_left (collect_country w) (before ++ after) []).
Proof.
  repeat split.
  - intros e H. unfold get_country_list. by rewrite H.
  - intros e H. unfold get_country_list, country_list_body. by rewrite H.
  - intros e H. unfold get_country_list, country_list_body.
    destruct (countries_page w); simpl; [|done]. by rewrite H.
  - intros url code name e H. unfold get_country_data. by rewrite H.
  - intros url code name e H. unfold get_country_data, country_data_body.
    by rewrite H.
  - intros url code name e H. unfold get_country_data, country_data_body.
    destruct (country_page w url); simpl; [|done]. by rewrite H.
  - intros before country after H.
    rewrite !collect_country_fold, !omap_app. simpl. by rewrite H.
Qed.

Lemma scraping_failures_contained_witness :
  get_country_list (mkWorld (Raise RequestException)
                      (λ _, Raise RequestException) (λ _, Ok ()) (λ _, false)) = [].
Proof.
  exact (proj1 (proj2 (scraping_failures_contained
    (mkWorld (Raise RequestException) (λ _, Raise RequestException)
       (λ _, Ok ()) (λ _, false)))) RequestException eq_refl).
Defined.

(** ** The end-to-end scenario *)

(** C2 as stated fails: the normalizer reads the year from the record's
    [year] field; on the record as written, without that field, it emits the
    country and the indicator but no value row. *)
Lemma scenario_as_written_emits_no_value :
  t_indicator_values (process_data_for_db [scenario_record_as_written]) = [] ∧
  t_indicator_values (process_data_for_db [scenario_record_as_written])
    ≠ [ mkValueRow "BRA" "gdp" 2020 (Qmake 14447 10) ].
Proof. split; [reflexivity|discriminate]. Qed.

(** C2 (amended): from the row texts ["GDP"] and ["1,444.7 (2020)"] the
    extractor builds the indicator with code [gdp], value text ["1,444.7"] and
    year 2020, the year being parsed from the value text instead of the
    default 2023; on the record of country BRA carrying that indicator under
    [economic], the normalize step emits country BRA, indicator [gdp] with
    category [economic], and exactly one value row (BRA, gdp, 2020, 1444.7). *)
Theorem scenario_extracted_emits_one_value :
  extract_indicator "GDP" "1,444.7 (2020)" =
    mkIndicator "GDP" "gdp" (Some (PyStr "1,444.7")) (Some 2020) ∧
  search_year "1,444.7 (2020)" = Some 2020 ∧
  process_data_for_db [scenario_record_extracted] =
    mkTables
      [ mkCountryRow "BRA" "Brazil" None None None (Some "br") (Some "BRA") ]
      [ mkIndicatorRow "gdp" "GDP" (Some "economic") "" "Banco Mundial" ]
      [ mkValueRow "BRA" "gdp" 2020 (Qmake 14447 10) ].
Proof. repeat split; reflexivity. Qed.

(** ** The loader *)

(** C6 as stated fails: loading an empty indicator collection (a run whose
    pages showed no indicator) succeeds and leaves the rows of the earlier
    run in the [indicators] and [indicator_values] tables. *)
Lemma load_keeps_rows_when_collection_empty :
  create_database_from_data (calm_world [] (λ _, Raise RequestException))
    earlier_store [brazil_row] [] [] = (true, earlier_store) ∧
  ¬ load_replaces_all (calm_world [] (λ _, Raise RequestException))
      earlier_store [brazil_row] [] [].
Proof.
  split; [reflexivity|].
  intros H. destruct (H earlier_store eq_refl) as (_ & Hind & _).
  discriminate Hind.
Qed.

(** C6 (amended): a successful load replaces the contents of the countries
    table with the supplied collection, and the contents of the indicators and
    indicator_values tables with the supplied collection when that collection
    is not empty; an empty indicators or indicator_values collection leaves
    the table as it was.  A load in which no database step raises is
    successful. *)
Theorem load_replaces_nonempty_tables (w : World) (db db' : Store)
    (cs : list CountryRow) (ids : list IndicatorRow) (vs : list ValueRow) :
  create_database_from_data w db cs ids vs = (true, db') →
  tbl_countries db' = cs ∧
  (ids ≠ [] → tbl_indicators db' = ids) ∧
  (ids = [] → tbl_indicators db' = tbl_indicators db) ∧
  (vs ≠ [] → tbl_indicator_values db' = vs) ∧
  (vs = [] → tbl_indicator_values db' = tbl_indicator_values db) ∧
  ((∀ step, db_raises w step = false) →
   (create_database_from_data w db cs ids vs).1 = true).
Proof.
  unfold create_database_from_data, create_database_body, to_sql, execute.
  unfold mbind, DB_bind, mret, DB_ret.
  intros H. repeat split.
  all: try (intros Hcalm; rewrite ?Hcalm; destruct ids, vs; simpl;
            rewrite ?Hcalm; simpl; rewrite ?Hcalm; reflexivity).
  all: revert H;
    destruct (db_raises w StepConnect); simpl; try discriminate;
    destruct (db_raises w StepSchema); simpl; try discriminate;
    destruct (db_raises w StepCountries); simpl; try discriminate;
    destruct ids as [|i ids]; simpl;
    try destruct (db_raises w StepIndicators); simpl; try discriminate;
    destruct vs as [|v vs]; simpl;
    try destruct (db_raises w StepValues); simpl; try discriminate;
    destruct (db_raises w StepIndexes); simpl; try discriminate;
    intros [= <-]; try done.
Qed.

Lemma load_replaces_nonempty_tables_witness :
  tbl_countries (mkStore [brazil_row] [gdp_row] [gdp_2020]) = [brazil_row] ∧
  tbl_indicators (mkStore [brazil_row] [gdp_row] [gdp_2020]) = [gdp_row] ∧
  tbl_indicator_values (mkStore [brazil_row] [gdp_row] [gdp_2020]) = [gdp_2020].
Proof.
  destruct (load_replaces_nonempty_tables
              (calm_world [] (λ _, Raise RequestException))
              (mkStore [] [] []) (mkStore [brazil_row] [gdp_row] [gdp_2020])
              [brazil_row] [gdp_row] [gdp_2020] eq_refl)
    as (H1 & H2 & _ & H4 & _).
  split; [exact H1|]. split; [apply H2|apply H4]; discriminate.
Defined.

(** ** The command line *)



Lemma py_slice_to_nonneg {A} (n : Z) (l : list A) :
  0 ≤ n → py_slice_to n l = take (Z.to_nat n) l.
Proof. intros H. unfold py_slice_to. by apply Z.leb_le in H as ->. Qed.

Lemma digit_not_space c : Text.is_digit c = true → Text.is_space c = false.
Proof. destruct c as [[] [] [] [] [] [] [] []]; vm_compute; congruence. Qed.








(** ** The country profile query *)

Section Ordering.

Context {A : Type}.
Implicit Types (l : list A) (key : A → Z).

Lemma insert_by_perm before x l : insert_by before x l ≡ₚ x :: l.
Proof.
  induction l as [|y l IH]; simpl; [done|].
  destruct (before y x); [|done].
  rewrite IH. apply Permutation_swap.
Qed.

Lemma order_by_perm before l : order_by before l ≡ₚ l.
Proof.
  induction l as [|x l IH]; simpl; [done|].
  rewrite insert_by_perm. by rewrite IH.
Qed.

Lemma head_insert_by before x l :
  head (insert_by before x l) =
  match head l with
  | Some y => if before y x then Some y else Some x
  | None => Some x
  end.
Proof. destruct l as [|y l]; simpl; [done|]. by destruct (before y x). Qed.

(** Descending stable order puts the first maximum in front. *)
Lemma head_order_by_desc key l :
  head (order_by (λ a b, key b <? key a) l) = first_max key l.
Proof.
  induction l as [|x l IH]; simpl; [done|].
  rewrite head_insert_by. fold (order_by (λ a b, key b <? key a) l).
  by rewrite IH.
Qed.

Lemma first_max_cons key x l :
  first_max key (x :: l) = later_max key (Some x) (first_max key l).
Proof. done. Qed.

Lemma later_max_assoc key o1 o2 o3 :
  later_max key o1 (later_max key o2 o3) = later_max key (later_max key o1 o2) o3.
Proof.
  destruct o1 as [a|], o2 as [b|], o3 as [c|]; simpl; try done.
  - destruct (key b <? key c) eqn:Ebc, (key a <? key b) eqn:Eab; simpl;
      rewrite ?Ebc, ?Eab; try done.
    + assert ((key a <? key c) = true) as -> by lia. done.
    + destruct (key a <? key c) eqn:Eac; [lia|done].
  - by destruct (key a <? key b).
Qed.

Lemma first_max_app key l1 l2 :
  first_max key (l1 ++ l2) = later_max key (first_max key l1) (first_max key l2).
Proof.
  induction l1 as [|x l1 IH]; [done|].
  rewrite <- app_comm_cons, !first_max_cons, IH.
  apply later_max_assoc.
Qed.

Lemma first_max_same_key key x l :
  (∀ y, y ∈ l → key y = key x) → first_max key (x :: l) = Some x.
Proof.
  revert x. induction l as [|y l IH]; intros x Hall; [done|].
  rewrite first_max_cons, IH.
  - simpl. rewrite (Hall y) by apply list_elem_of_here.
    by rewrite Z.ltb_irrefl.
  - intros z Hz.
    transitivity (key x); [|symmetry]; apply Hall;
      [by apply list_elem_of_further|apply list_elem_of_here].
Qed.

Lemma first_max_filter_spec key (P : A → Prop) `{!∀ x, Decision (P x)} l m :
  first_max key (filter P l) = Some m →
  ∃ before after, l = before ++ m :: after ∧ P m ∧
    (∀ r, r ∈ before → P r → key r < key m) ∧
    (∀ r, r ∈ after → P r → key r ≤ key m).
Proof.
  revert m. induction l as [|x l IH]; intros m; [done|].
  rewrite filter_cons. destruct (decide (P x)) as [Hx|Hx].
  - rewrite first_max_cons.
    destruct (first_max key (filter P l)) as [m'|] eqn:E; simpl.
    + destruct (IH m' eq_refl) as (b & a & -> & Hm' & Hb & Ha).
      destruct (key x <? key m') eqn:Elt; intros [= <-].
      * exists (x :: b), a. repeat split; try done.
        intros r [->|Hr]%elem_of_cons Hr'; [lia|by apply Hb].
      * exists [], (b ++ m' :: a). repeat split; try done.
        { by intros r ?%elem_of_nil. }
        intros r [Hr|[->|Hr]%elem_of_cons]%elem_of_app Hr'.
        -- specialize (Hb r Hr Hr'). lia.
        -- lia.
        -- specialize (Ha r Hr Hr'). lia.
    + intros [= <-]. exists [], l. repeat split; try done.
      { by intros r ?%elem_of_nil. }
      intros r Hr Hr'. exfalso.
      assert (r ∈ filter P l) as Hin by by apply list_elem_of_filter.
      destruct (filter P l); [by apply elem_of_nil in Hin|].
      simpl in E. destruct (first_max key l0); [destruct (_ <? _)|]; discriminate.
  - intros Hfm. destruct (IH m Hfm) as (b & a & -> & Hm & Hb & Ha).
    exists (x :: b), a. repeat split; try done.
    intros r [->|Hr]%elem_of_cons Hr'; [done|by apply Hb].
Qed.

Lemma first_max_is_Some key l : l ≠ [] → is_Some (first_max key l).
Proof.
  destruct l as [|x l]; [done|]. intros _. simpl.
  destruct (first_max key l); [destruct (_ <? _)|]; eauto.
Qed.

End Ordering.

Section Ranking.

Lemma first_key_split {A} (key : A → string) (l : list A) (k : string) :
  k ∈ (key <$> l) →
  ∃ before x after, l = before ++ x :: after ∧ key x = k ∧ (k ∉ (key <$> before)).
Proof.
  induction l as [|x l IH]; [by intros ?%elem_of_nil|].
  rewrite fmap_cons. destruct (decide (key x = k)) as [Heq|Hne].
  - intros _. exists [], x, l. split; [done|]. split; [done|].
    rewrite fmap_nil. apply not_elem_of_nil.
  - intros [?|Hin]%elem_of_cons; [congruence|].
    destruct (IH Hin) as (b & x' & a & -> & Hx' & Hb).
    exists (x :: b), x', a. split; [done|]. split; [done|].
    rewrite fmap_cons, not_elem_of_cons. split; [congruence|done].
Qed.

Lemma no_rank_one {A} (f : nat → A → A * nat) (l : list A) :
  (∀ k x, (f k x).2 ≠ 1%nat) →
  filter (λ p : A * nat, p.2 = 1%nat) (imap f l) = [].
Proof.
  revert f. induction l as [|x l IH]; intros f Hf; [done|].
  rewrite imap_cons, filter_cons_False by apply Hf.
  apply IH. intros k y. apply Hf.
Qed.

(** Keeping rank 1 of a numbered list keeps its head. *)
Lemma rank_one_rows {A} (l : list A) :
  fst <$> filter (λ p : A * nat, p.2 = 1%nat) (imap (λ k row, (row, S k)) l)
  = option_list (head l).
Proof.
  destruct l as [|x l]; [done|].
  rewrite imap_cons, filter_cons_True by done.
  rewrite no_rank_one; [done|]. intros k y. simpl. lia.
Qed.

Lemma rank_one_of_partitions (rows : list JoinedRow) (codes : list string) :
  fst <$> filter (λ ranked : JoinedRow * nat, ranked.2 = 1%nat)
    (code ← codes;
     imap (λ k row, (row, S k))
          (order_by year_desc (filter (λ row, j_indicator_code row = code) rows)))
  = code ← codes;
    option_list (first_max j_year (filter (λ row, j_indicator_code row = code) rows)).
Proof.
  induction codes as [|c codes IH]; [done|].
  rewrite !bind_cons, filter_app, fmap_app, IH. f_equal.
  rewrite rank_one_rows. f_equal.
  apply (head_order_by_desc j_year).
Qed.

Lemma tops_codes (rows : list JoinedRow) (codes : list string) :
  (∀ c, c ∈ codes → c ∈ (j_indicator_code <$> rows)) →
  j_indicator_code <$>
    (code ← codes;
     option_list (first_max j_year (filter (λ row, j_indicator_code row = code) rows)))
  = codes.
Proof.
  induction codes as [|c codes IH]; intros Hin; [done|].
  rewrite bind_cons, fmap_app, IH.
  2:{ intros c' Hc'. apply Hin. by apply list_elem_of_further. }
  assert (c ∈ (j_indicator_code <$> rows)) as Hc by apply Hin, list_elem_of_here.
  apply list_elem_of_fmap in Hc as (r & Hr & Hrin).
  destruct (first_max j_year (filter (λ row, j_indicator_code row = c) rows))
    as [m|] eqn:E.
  - apply first_max_filter_spec in E as (_ & _ & _ & Hm & _).
    simpl. by rewrite Hm.
  - exfalso.
    assert (r ∈ filter (λ row, j_indicator_code row = c) rows) as Hf
      by by apply list_elem_of_filter.
    destruct (first_max_is_Some j_year
                (filter (λ row, j_indicator_code row = c) rows)) as [m Hm].
    + intros Hnil. rewrite Hnil in Hf. by apply elem_of_nil in Hf.
    + congruence.
Qed.

End Ranking.

Section Profile.

Variable db : Store.
Variable country_code : string.

Lemma joined_one_value (iv : ValueRow) (code : string) (ids : list IndicatorRow) :
  filter (λ row, j_indicator_code row = code)
    (i ← ids;
     if decide (v_indicator_code iv = i_indicator_code i) then [join_row i iv] else [])
  = if decide (v_indicator_code iv = code)
    then (λ i, join_row i iv) <$> filter (λ i, i_indicator_code i = code) ids
    else [].
Proof.
  induction ids as [|i ids IH].
  - by destruct (decide _).
  - rewrite bind_cons, filter_app, IH.
    rewrite (filter_cons (λ i, i_indicator_code i = code)).
    destruct (decide (v_indicator_code iv = i_indicator_code i)) as [Hi|Hi],
             (decide (v_indicator_code iv = code)) as [Hc|Hc],
             (decide (i_indicator_code i = code)) as [Hic|Hic];
      try congruence;
      rewrite ?filter_cons_True, ?filter_cons_False, ?filter_nil
        by (simpl; congruence);
      done.
Qed.

(** The partition of the join for one code: the country's values of that
    code, each paired with the descriptions of that code. *)
Lemma joined_partition (code : string) :
  filter (λ row, j_indicator_code row = code) (joined db country_code)
  = iv ← filter (value_of country_code code) (tbl_indicator_values db);
    (λ i, join_row i iv) <$> filter (λ i, i_indicator_code i = code) (tbl_indicators db).
Proof.
  unfold joined. induction (tbl_indicator_values db) as [|iv vs IH]; [done|].
  rewrite bind_cons, filter_app, IH, filter_cons. unfold value_of at 2.
  destruct (decide (v_country_code iv = country_code)) as [Hcc|Hcc].
  - rewrite joined_one_value.
    destruct (decide (v_indicator_code iv = code)) as [Hc|Hc].
    + rewrite decide_True by done. by rewrite bind_cons.
    + rewrite decide_False by (by intros [_ ?]). done.
  - rewrite decide_False by (by intros [? _]). done.
Qed.

Lemma first_max_paired (i0 : IndicatorRow) (ids : list IndicatorRow) (vs : list ValueRow) :
  first_max j_year (iv ← vs; (λ i, join_row i iv) <$> (i0 :: ids))
  = join_row i0 <$> first_max v_year vs.
Proof.
  induction vs as [|iv vs IH]; [done|].
  rewrite bind_cons, first_max_app, IH, fmap_cons, first_max_same_key.
  - rewrite first_max_cons. destruct (first_max v_year vs) as [m|]; simpl; [|done].
    by destruct (v_year iv <? v_year m).
  - by intros y (i & -> & _)%list_elem_of_fmap.
Qed.

Lemma filter_first_indicator (code : string) (i0 : IndicatorRow) :
  first_indicator db code i0 →
  ∃ ids, filter (λ i, i_indicator_code i = code) (tbl_indicators db) = i0 :: ids.
Proof.
  intros (before & after & -> & Hcode & Hbefore).
  exists (filter (λ i, i_indicator_code i = code) after).
  rewrite filter_app, (filter_absent_key _ _ _ Hbefore).
  by rewrite filter_cons_True.
Qed.

(** The rank-1 row of a code that has values: its latest value joined with
    its first description. *)
Lemma top_of_partition (code : string) :
  has_values db country_code code →
  ∃ iv i, latest_value db country_code code iv ∧ first_indicator db code i ∧
    first_max j_year (filter (λ row, j_indicator_code row = code)
                             (joined db country_code)) = Some (join_row i iv).
Proof.
  intros (iv' & i' & Hiv & Hi & Hcc & Hc & Hic).
  destruct (first_key_split i_indicator_code (tbl_indicators db) code)
    as (ib & i0 & ia & Hsplit & Hi0 & Hib).
  { apply list_elem_of_fmap. by exists i'. }
  assert (first_indicator db code i0) as Hfirst by by exists ib, ia.
  destruct (filter_first_indicator code i0 Hfirst) as (ids & Hids).
  destruct (first_max_is_Some v_year
              (filter (value_of country_code code) (tbl_indicator_values db)))
    as [iv0 Hiv0].
  { intros Hnil.
    assert (iv' ∈ filter (value_of country_code code) (tbl_indicator_values db)) as Hin
      by by apply list_elem_of_filter.
    rewrite Hnil in Hin. by apply elem_of_nil in Hin. }
  exists iv0, i0. split; [|split; [done|]].
  - apply first_max_filter_spec in Hiv0 as (b & a & ? & ? & ? & ?).
    by exists b, a.
  - by rewrite joined_partition, Hids, first_max_paired, Hiv0.
Qed.

Lemma profile_rows_perm : profile_rows db country_code ≡ₚ top_rows db country_code.
Proof.
  unfold profile_rows, ranked_indicators, top_rows.
  by rewrite order_by_perm, rank_one_of_partitions.
Qed.

Lemma profile_rows_codes_NoDup :
  NoDup (j_indicator_code <$> profile_rows db country_code).
Proof.
  rewrite profile_rows_perm. unfold top_rows. rewrite tops_codes.
  - apply NoDup_remove_dups.
  - intros c. by rewrite elem_of_remove_dups.
Qed.

Lemma profile_rows_from_join (row : JoinedRow) :
  row ∈ profile_rows db country_code →
  has_values db country_code (j_indicator_code row).
Proof.
  rewrite profile_rows_perm. unfold top_rows.
  intros (c & Hrow & _)%list_elem_of_bind.
  destruct (first_max _ _) as [m|] eqn:E; [|by apply elem_of_nil in Hrow].
  apply list_elem_of_singleton in Hrow as ->.
  apply first_max_filter_spec in E as (b & a & Hjoin & Hm & _).
  assert (m ∈ joined db country_code) as Hin.
  { rewrite Hjoin. apply elem_of_app. right. apply list_elem_of_here. }
  unfold joined in Hin.
  apply list_elem_of_bind in Hin as (iv & Hin & Hiv).
  destruct (decide (v_country_code iv = country_code)); [|by apply elem_of_nil in Hin].
  apply list_elem_of_bind in Hin as (i & Hin & Hi).
  destruct (decide (v_indicator_code iv = i_indicator_code i));
    [|by apply elem_of_nil in Hin].
  apply list_elem_of_singleton in Hin as ->.
  by exists iv, i.
Qed.

Lemma profile_rows_top (code : string) :
  has_values db country_code code →
  ∃ iv i, latest_value db country_code code iv ∧ first_indicator db code i ∧
    filter (λ row, j_indicator_code row = code) (profile_rows db country_code)
    = [join_row i iv].
Proof.
  intros Hv. destruct (top_of_partition code Hv) as (iv & i & Hlatest & Hfirst & Htop).
  exists iv, i. split; [done|]. split; [done|].
  assert (join_row i iv ∈ profile_rows db country_code) as Hin.
  { rewrite profile_rows_perm. unfold top_rows.
    apply list_elem_of_bind. exists code. rewrite Htop. split.
    - apply list_elem_of_here.
    - rewrite elem_of_remove_dups.
      apply first_max_filter_spec in Htop as (b & a & Hjoin & _).
      apply list_elem_of_fmap. exists (join_row i iv).
      split; [by destruct Hfirst as (? & ? & _ & ? & _)|].
      rewrite Hjoin. apply elem_of_app. right. apply list_elem_of_here. }
  pose proof (filter_unique_key j_indicator_code _ _
                profile_rows_codes_NoDup Hin) as Hone.
  destruct Hfirst as (? & ? & _ & Hcode & _).
  simpl in Hone. by rewrite Hcode in Hone.
Qed.

End Profile.

Section Grouping.

Implicit Types (categories : gmap string (list ProfileEntry)) (rows : list JoinedRow).

Lemma add_to_profile_lookup categories row k :
  add_to_profile categories row !! k =
  if decide (in_bucket k row)
  then Some (default [] (categories !! k) ++ [profile_entry row])
  else categories !! k.
Proof.
  unfold add_to_profile.
  destruct (decide (in_bucket k row)) as [Hk|Hk]; unfold in_bucket in Hk.
  - rewrite Hk. destruct (categories !! k) as [es|] eqn:E.
    + by rewrite lookup_insert_eq, E.
    + by rewrite !lookup_insert_eq.
  - destruct (categories !! category_or_other (j_category row)).
    + by rewrite lookup_insert_ne.
    + by rewrite !lookup_insert_ne.
Qed.

(** After the grouping loop a bucket holds what it held before, followed
    by the entries of the rows of that bucket, in row order. *)
Lemma fold_add_to_profile_lookup rows categories k :
  fold_left add_to_profile rows categories !! k =
  match filter (in_bucket k) rows with
  | [] => categories !! k
  | bucket => Some (default [] (categories !! k) ++ (profile_entry <$> bucket))
  end.
Proof.
  revert categories. induction rows as [|row rows IH]; intros categories; [done|].
  cbn [fold_left]. rewrite IH, add_to_profile_lookup, filter_cons.
  destruct (decide (in_bucket k row)) as [Hk|Hk].
  - simpl. destruct (filter (in_bucket k) rows) as [|r rs]; [done|].
    f_equal. by rewrite <- app_assoc.
  - done.
Qed.

Lemma profile_lookup rows k entries :
  fold_left add_to_profile rows ∅ !! k = Some entries →
  entries = profile_entry <$> filter (in_bucket k) rows.
Proof.
  rewrite fold_add_to_profile_lookup, lookup_empty.
  destruct (filter (in_bucket k) rows); [done|]. by intros [= <-].
Qed.

Lemma filter_entries_of_code (code : string) rows :
  filter (λ e, e_indicator_code e = code) (profile_entry <$> rows)
  = profile_entry <$> filter (λ row, j_indicator_code row = code) rows.
Proof.
  induction rows as [|row rows IH]; [done|].
  rewrite fmap_cons, !filter_cons, IH. simpl.
  by destruct (decide (j_indicator_code row = code)).
Qed.

End Grouping.

(** C8 as stated fails for an indicator whose category is the empty text:
    it is not null, yet the profile files the indicator under [other]. *)
Lemma profile_files_empty_category_under_other :
  (∃ country profile,
     get_country_profile uncategorised_store "BRA" = Response (country, profile) ∧
     profile !! "" = None ∧
     profile !! "other" = Some [mkProfileEntry "gdp" "GDP" (Qmake 14447 10) 2020]) ∧
  ¬ grouped_by_category_unless_null uncategorised_store "BRA".
Proof.
  split.
  - eexists _, _. split; [reflexivity|]. split; by vm_compute.
  - intros H.
    edestruct (H brazil_row _ (mkIndicatorRow "gdp" "GDP" (Some "") "" "Banco Mundial")
                 gdp_2020 eq_refl) as (entries & Hlookup & _).
    + apply list_elem_of_here.
    + apply list_elem_of_here.
    + reflexivity.
    + reflexivity.
    + vm_compute in Hlookup. discriminate Hlookup.
Qed.

(** C8 (amended): for every store and every country present in it, the
    profile query answers, and for each indicator that has values for that
    country the answer holds exactly one entry: it carries the value whose
    year is the greatest among that indicator's years for that country (among
    rows of that year, the first in table order), and it is filed under the
    indicator's category, or under [other] when the category is null or the
    empty text; the answer holds no entry for any other indicator. *)
Theorem profile_latest_value_per_indicator (db : Store) (country_code : string) :
  country_code ∈ (c_country_code <$> tbl_countries db) →
  ∃ country profile,
    get_country_profile db country_code = Response (country, profile) ∧
    country ∈ tbl_countries db ∧ c_country_code country = country_code ∧
    (∀ code, has_values db country_code code →
       ∃ iv i, latest_value db country_code code iv ∧ first_indicator db code i ∧
         is_Some (profile !! category_or_other (i_category i)) ∧
         ∀ k entries, profile !! k = Some entries →
           filter (λ e, e_indicator_code e = code) entries =
             if decide (k = category_or_other (i_category i))
             then [mkProfileEntry code (i_name i) (v_value iv) (v_year iv)]
             else []) ∧
    (∀ k entries e, profile !! k = Some entries → e ∈ entries →
       has_values db country_code (e_indicator_code e)) ∧
    (∀ category, category_or_other category =
       match category with
       | None => "other"
       | Some c => if decide (c = "") then "other" else c
       end).
Proof.
  intros Hpresent. unfold get_country_profile.
  destruct (List.find _ (tbl_countries db)) as [country|] eqn:Efind.
  2:{ exfalso. apply list_elem_of_fmap in Hpresent as (c & Hc & Hin).
      apply list_elem_of_In in Hin.
      pose proof (List.find_none _ _ Efind c Hin) as Hnone. simpl in Hnone.
      by rewrite bool_decide_eq_true_2 in Hnone. }
  apply List.find_some in Efind as [Hin Hcode].
  apply bool_decide_eq_true_1 in Hcode. apply list_elem_of_In in Hin.
  eexists country, _. split; [reflexivity|]. split; [done|]. split; [done|].
  split; [|split].
  - intros code Hv.
    destruct (profile_rows_top db country_code code Hv)
      as (iv & i & Hlatest & Hfirst & Htop).
    exists iv, i. split; [done|]. split; [done|].
    assert (i_indicator_code i = code) as Hi
      by by destruct Hfirst as (? & ? & _ & ? & _).
    assert (join_row i iv ∈ profile_rows db country_code) as Hrow.
    { assert (join_row i iv ∈ filter (λ row, j_indicator_code row = code)
                                 (profile_rows db country_code)) as Hf
        by (rewrite Htop; apply list_elem_of_here).
      by apply list_elem_of_filter in Hf as [_ ?]. }
    split.
    + rewrite fold_add_to_profile_lookup, lookup_empty.
      destruct (filter (in_bucket (category_or_other (i_category i)))
                  (profile_rows db country_code)) as [|r rs] eqn:E;
        [|by eexists].
      exfalso.
      assert (join_row i iv ∈ filter (in_bucket (category_or_other (i_category i)))
                                 (profile_rows db country_code)) as Hf
        by by apply list_elem_of_filter.
      rewrite E in Hf. by apply elem_of_nil in Hf.
    + intros k entries ->%profile_lookup.
      rewrite filter_entries_of_code, list_filter_filter.
      rewrite (list_filter_iff _ (λ row, in_bucket k row ∧ j_indicator_code row = code))
        by (intros; tauto).
      rewrite <- list_filter_filter, Htop, filter_cons, filter_nil.
      unfold in_bucket at 1. simpl.
      destruct (decide (category_or_other (i_category i) = k)) as [<-|Hne].
      * rewrite decide_True by done. by rewrite <- Hi.
      * by rewrite decide_False.
  - intros k entries e ->%profile_lookup (row & -> & Hrow)%list_elem_of_fmap.
    apply list_elem_of_filter in Hrow as [_ Hrow].
    by apply profile_rows_from_join.
  - intros [c|]; [|done]. simpl. by destruct c.
Qed.

Lemma profile_latest_value_per_indicator_witness :
  ∃ country profile,
    get_country_profile earlier_store "BRA" = Response (country, profile) ∧
    c_country_code country = "BRA".
Proof.
  destruct (profile_latest_value_per_indicator earlier_store "BRA")
    as (country & profile & H1 & _ & H3 & _).
  - vm_compute. apply list_elem_of_here.
  - exists country, profile. exact (conj H1 H3).
Defined.

(** * Further properties of the extractor *)

Section ExtractorFacts.

Lemma prefix_app_same a b s : String.prefix (a +:+ b) (a +:+ s) = String.prefix b s.
Proof.
  induction a as [|c a IH]; [done|]. simpl.
  destruct (ascii_dec c c); [done|congruence].
Qed.

Lemma lstrip_idemp s : Text.lstrip (Text.lstrip s) = Text.lstrip s.
Proof.
  induction s as [|c s IH]; [done|]. simpl.
  destruct (Text.is_space c) eqn:E; [done|]. simpl. by rewrite E.
Qed.

Lemma rstrip_cons c s :
  Text.rstrip (String c s) =
  match Text.rstrip s with
  | EmptyString => if Text.is_space c then EmptyString else String c EmptyString
  | rest => String c rest
  end.
Proof. done. Qed.

Lemma rstrip_idemp s : Text.rstrip (Text.rstrip s) = Text.rstrip s.
Proof.
  induction s as [|c s IH]; [done|]. rewrite rstrip_cons.
  destruct (Text.rstrip s) as [|c' r] eqn:E.
  - destruct (Text.is_space c) eqn:Ec; [done|]. simpl. by rewrite Ec.
  - by rewrite rstrip_cons, IH.
Qed.

(** Trimming the right end keeps a non-blank first character in front. *)
Lemma lstrip_rstrip_head s :
  Text.lstrip s = s → Text.lstrip (Text.rstrip s) = Text.rstrip s.
Proof.
  destruct s as [|c s]; [done|]. simpl.
  destruct (Text.is_space c) eqn:E.
  - intros H. exfalso.
    assert (String.length (Text.lstrip s) ≤ String.length s)%nat as Hle.
    { clear. induction s as [|c s IH]; simpl; [done|].
      destruct (Text.is_space c); simpl; lia. }
    rewrite H in Hle. simpl in Hle. lia.
  - intros _. destruct (Text.rstrip s); simpl; by rewrite E.
Qed.

Lemma strip_idemp s : Text.strip (Text.strip s) = Text.strip s.
Proof.
  unfold Text.strip.
  rewrite (lstrip_rstrip_head (Text.lstrip s)) by apply lstrip_idemp.
  apply rstrip_idemp.
Qed.

Lemma candidate_shape link c :
  candidate link = Some c →
  Text.all code_char (l_code c) = true ∧
  String.prefix "https://data.worldbank.org/country/" (l_url c) = true ∧
  Text.strip (l_name c) = l_name c.
Proof.
  unfold candidate.
  destruct (negb _ && String.prefix "/country/" (a_href link)) eqn:E; [|done].
  apply andb_true_iff in E as [_ Hp]. intros Heq.
  assert (c = mkCountryLink (BASE_URL +:+ a_href link) (derive_code (a_href link))
                (Text.strip (a_text link))) as -> by congruence.
  cbn [l_code l_url l_name].
  split; [apply TextFacts.filter_all|]. split; [|apply strip_idemp].
  change "https://data.worldbank.org/country/" with (BASE_URL +:+ "/country/").
  by rewrite prefix_app_same.
Qed.

Lemma get_country_list_cases w :
  get_country_list w = [] ∨
  ∃ anchors, get_country_list w = unique_links (candidates anchors).
Proof.
  unfold get_country_list, country_list_body.
  destruct (countries_page w) as [anchors|e]; simpl; [|by left].
  destruct (write_json w _); simpl; [|by left].
  right. by exists anchors.
Qed.

Lemma keep_unique_all cands acc seen :
  NoDup (l_code <$> cands) →
  (∀ c, c ∈ cands → named c ∧ l_code c ∉ seen) →
  (fold_left keep_unique cands (acc, seen)).1 = acc ++ cands.
Proof.
  revert acc seen. induction cands as [|c cands IH]; intros acc seen Hnd Hall.
  - by rewrite app_nil_r.
  - cbn [fold_left]. rewrite fmap_cons in Hnd. apply NoDup_cons in Hnd as [Hc Hnd].
    destruct (Hall c) as [Hn Hs]; [apply list_elem_of_here|].
    rewrite keep_unique_kept by done. rewrite IH; [by rewrite <- app_assoc|done|].
    intros c' Hc'. destruct (Hall c') as [Hn' Hs']; [by apply list_elem_of_further|].
    split; [done|]. rewrite elem_of_union, elem_of_singleton.
    intros [?|Heq]; [done|]. apply Hc. rewrite <- Heq. by apply list_elem_of_fmap_2.
Qed.

End ExtractorFacts.

(** X1: whatever the page and whatever fails, every entry of the country
    list has a non-empty display name without surrounding whitespace, a code
    made of letters, digits and hyphens only, and a URL under the country
    path of the site. *)
Theorem get_country_list_entries (w : World) (c : CountryLink) :
  c ∈ get_country_list w →
  l_name c ≠ "" ∧
  Text.strip (l_name c) = l_name c ∧
  Text.all code_char (l_code c) = true ∧
  String.prefix "https://data.worldbank.org/country/" (l_url c) = true.
Proof.
  destruct (get_country_list_cases w) as [->|(anchors & ->)];
    [by intros ?%elem_of_nil|].
  intros Hin.
  destruct (unique_links_spec (candidates anchors)) as (_ & Hsub & Hmem).
  assert (named c) as Hn by by apply Hmem in Hin as (_ & _ & _ & ? & _).
  assert (c ∈ candidates anchors) as Hc by by eapply elem_of_sublist.
  apply list_elem_of_omap in Hc as (link & _ & Hlink).
  destruct (candidate_shape link c Hlink) as (? & ? & ?). done.
Qed.

Lemma get_country_list_entries_witness :
  Text.all code_char "brazil" = true.
Proof.
  exact (proj1 (proj2 (proj2 (get_country_list_entries
    (calm_world flag_then_name (λ _, Raise RequestException))
    (mkCountryLink "https://data.worldbank.org/country/brazil?view=chart" "brazil" "Brazil")
    (list_elem_of_here _ _))))).
Defined.

(** X2: removing duplicates is idempotent: a country list that went through
    the deduplication loop comes out of a second pass unchanged. *)
Theorem unique_links_idempotent (cands : list CountryLink) :
  unique_links (unique_links cands) = unique_links cands.
Proof.
  destruct (unique_links_spec cands) as (Hnd & _ & Hmem).
  unfold unique_links at 1. rewrite keep_unique_all; [done|done|].
  intros c Hc. split; [|apply not_elem_of_empty].
  by apply Hmem in Hc as (_ & _ & _ & ? & _).
Qed.

Section YearSearch.

Lemma append_nil_l s : "" +:+ s = s.
Proof. done. Qed.

Lemma append_cons c s1 s2 : String c s1 +:+ s2 = String c (s1 +:+ s2).
Proof. done. Qed.

Ltac split_matches :=
  repeat match goal with
         | |- context [match ?x with _ => _ end] => is_var x; destruct x
         end.

Lemma search_year_cons c s :
  search_year (String c s) =
  match paren_year (String c s) with
  | Some y => Some y
  | None => search_year s
  end.
Proof.
  cbn [search_year]. unfold paren_year.
  split_matches; try reflexivity.
  by destruct (_ && _).
Qed.

Lemma paren_year_here s y : paren_year s = Some y ↔ year_here s y.
Proof.
  split.
  - unfold paren_year. split_matches; try discriminate.
    destruct (_ && _) eqn:E; [|discriminate].
    apply andb_true_iff in E as [E H4]. apply andb_true_iff in E as [E H3].
    apply andb_true_iff in E as [H1 H2]. intros [= <-].
    eexists _, _, _, _, _. repeat split; done.
  - intros (d1 & d2 & d3 & d4 & post & -> & H1 & H2 & H3 & H4 & ->).
    simpl. by rewrite H1, H2, H3, H4.
Qed.

Lemma digit_val_range c : Text.is_digit c = true → 0 ≤ Text.digit_val c ≤ 9.
Proof. destruct c as [[] [] [] [] [] [] [] []]; vm_compute; intuition congruence. Qed.

Lemma year_here_range s y : year_here s y → 0 ≤ y ≤ 9999.
Proof.
  intros (d1 & d2 & d3 & d4 & post & _ & H1 & H2 & H3 & H4 & ->).
  apply digit_val_range in H1, H2, H3, H4. lia.
Qed.

Lemma year_here_functional s y y' : year_here s y → year_here s y' → y = y'.
Proof.
  intros H%paren_year_here H'%paren_year_here. congruence.
Qed.

(** [re.search] returns the leftmost match. *)
Lemma search_year_spec s y :
  search_year s = Some y ↔
  ∃ pre rest, s = pre +:+ rest ∧ year_here rest y ∧
    no_year_before s (String.length pre).
Proof.
  revert y. induction s as [|c s IH]; intros y.
  - split; [done|]. intros (pre & rest & Heq & Hy & _).
    destruct pre; [|done]. rewrite ?append_nil_l, ?append_cons in Heq. subst rest.
    by apply paren_year_here in Hy.
  - rewrite search_year_cons.
    destruct (paren_year (String c s)) as [y0|] eqn:E.
    + apply paren_year_here in E. split.
      * intros [= <-]. exists "", (String c s). split; [done|]. split; [done|].
        intros pre rest y' _ Hlt. simpl in Hlt. lia.
      * intros (pre & rest & Heq & Hy & Hleft). destruct pre as [|c' pre].
        -- rewrite ?append_nil_l, ?append_cons in Heq. subst rest. f_equal. by eapply year_here_functional.
        -- exfalso. apply (Hleft "" (String c s) y0); [done|simpl; lia|done].
    + rewrite IH. split.
      * intros (pre & rest & -> & Hy & Hleft).
        exists (String c pre), rest. split; [done|]. split; [done|].
        intros pre' rest' y' Heq Hlt. destruct pre' as [|c' pre'].
        -- rewrite ?append_nil_l, ?append_cons in Heq. subst rest'. intros H%paren_year_here. congruence.
        -- rewrite ?append_nil_l, ?append_cons in Heq. injection Heq as -> Heq. simpl in Hlt.
           apply (Hleft pre' rest' y' Heq). lia.
      * intros (pre & rest & Heq & Hy & Hleft). destruct pre as [|c' pre].
        -- rewrite ?append_nil_l, ?append_cons in Heq. subst rest. apply paren_year_here in Hy. congruence.
        -- rewrite ?append_nil_l, ?append_cons in Heq. injection Heq as -> Heq.
           exists pre, rest. split; [done|]. split; [done|].
           intros pre' rest' y' Heq' Hlt.
           apply (Hleft (String c' pre') rest' y'); [by rewrite Heq'|simpl; lia].
Qed.

Lemma search_year_none s :
  search_year s = None ↔ ∀ pre rest y, s = pre +:+ rest → ¬ year_here rest y.
Proof.
  induction s as [|c s IH].
  - split; [|done]. intros _ pre rest y Heq.
    destruct pre; [|done]. rewrite ?append_nil_l, ?append_cons in Heq. subst rest.
    by intros ?%paren_year_here.
  - rewrite search_year_cons.
    destruct (paren_year (String c s)) as [y0|] eqn:E.
    + split; [done|]. intros H. exfalso.
      apply (H "" (String c s) y0); [done|]. by apply paren_year_here.
    + rewrite IH. split.
      * intros H pre rest y Heq. destruct pre as [|c' pre].
        -- rewrite ?append_nil_l, ?append_cons in Heq. subst rest. intros ?%paren_year_here. congruence.
        -- rewrite ?append_nil_l, ?append_cons in Heq. injection Heq as -> Heq. by apply (H pre).
      * intros H pre rest y Heq. apply (H (String c pre) rest y). by rewrite Heq.
Qed.

Lemma search_year_range s y : search_year s = Some y → 0 ≤ y ≤ 9999.
Proof.
  intros (pre & rest & _ & Hy & _)%search_year_spec. by eapply year_here_range.
Qed.

Lemma prefix_2023 s : String.prefix "(2023)" s = true → paren_year s = Some 2023.
Proof.
  unfold String.prefix.
  repeat (destruct s as [|? s]; [done|];
          match goal with
          | |- context [ascii_dec ?a ?b] => destruct (ascii_dec a b) as [<-|]; [|done]
          end).
  done.
Qed.

Lemma remove_default_year s :
  search_year s = None → Text.remove_all "(2023)" s 0 = s.
Proof.
  induction s as [|c s IH]; [done|].
  rewrite search_year_cons.
  destruct (paren_year (String c s)) as [y0|] eqn:E; [done|].
  intros Hs. cbn [Text.remove_all].
  destruct (String.prefix "(2023)" (String c s)) eqn:P.
  - apply prefix_2023 in P. congruence.
  - by rewrite IH.
Qed.

End YearSearch.

(** X3: the year the extractor reads from a value text is that of the
    leftmost parenthesised run of exactly four digits followed by the closing
    parenthesis; it lies between 0 and 9999; and no year is found exactly when
    the text holds no such group. *)
Theorem search_year_leftmost (value_text : string) :
  (∀ y, search_year value_text = Some y ↔
        ∃ pre rest, value_text = pre +:+ rest ∧ year_here rest y ∧
          no_year_before value_text (String.length pre)) ∧
  (∀ y, search_year value_text = Some y → 0 ≤ y ≤ 9999) ∧
  (search_year value_text = None ↔
   ∀ pre rest y, value_text = pre +:+ rest → ¬ year_here rest y).
Proof.
  split; [intros y; apply search_year_spec|].
  split; [intros y; apply search_year_range|apply search_year_none].
Qed.

Lemma search_year_leftmost_witness : 0 ≤ 1999 ≤ 9999.
Proof.
  exact (proj1 (proj2 (search_year_leftmost "12 (1999) (2020)")) 1999 eq_refl).
Defined.

(** X4: when the value text holds no parenthesised four-digit group, the
    extracted indicator gets the year 2023 and its value is the value text
    itself, trimmed. *)
Theorem extract_indicator_default_year (indicator_name value_text : string) :
  (∀ pre rest y, value_text = pre +:+ rest → ¬ year_here rest y) →
  extract_indicator indicator_name value_text =
    mkIndicator indicator_name (slug indicator_name)
      (Some (PyStr (Text.strip value_text))) (Some 2023).
Proof.
  intros Hnone%search_year_none. unfold extract_indicator. rewrite Hnone.
  change (default 2023 None) with 2023.
  change ("(" +:+ Text.of_nat (Z.to_nat 2023) +:+ ")") with "(2023)".
  by rewrite remove_default_year.
Qed.

Lemma extract_indicator_default_year_witness :
  extract_indicator "GDP" " 1,444.7 " =
    mkIndicator "GDP" "gdp" (Some (PyStr "1,444.7")) (Some 2023).
Proof.
  apply (extract_indicator_default_year "GDP" " 1,444.7 ").
  by apply search_year_none.
Defined.

Section SlugFacts.

Lemma slug_char_of c :
  slug_char (Text.lower_char (if Text.is_alnum c then c else "_"%char)) = true.
Proof. destruct c as [[] [] [] [] [] [] [] []]; reflexivity. Qed.

Lemma slug_char_fixed c :
  slug_char c = true →
  Text.lower_char (if Text.is_alnum c then c else "_"%char) = c.
Proof. destruct c as [[] [] [] [] [] [] [] []]; vm_compute; congruence. Qed.

Lemma slug_all n : Text.all slug_char (slug n) = true.
Proof.
  unfold slug, Text.lower. induction n as [|c n IH]; [done|].
  cbn [Text.map Text.all]. by rewrite slug_char_of, IH.
Qed.

Lemma slug_fixed n : Text.all slug_char n = true → slug n = n.
Proof.
  unfold slug, Text.lower. induction n as [|c n IH]; [done|].
  cbn [Text.map Text.all]. intros [Hc Hn]%andb_true_iff.
  by rewrite (slug_char_fixed c Hc), IH.
Qed.

End SlugFacts.

(** X5: an indicator code consists of lowercase letters, digits and
    underscores only, has as many characters as the indicator name, and
    deriving a code from a code gives it back. *)
Theorem slug_alphabet (indicator_name : string) :
  Text.all slug_char (slug indicator_name) = true ∧
  String.length (slug indicator_name) = String.length indicator_name ∧
  slug (slug indicator_name) = slug indicator_name ∧
  (∀ c, slug_char c = true ↔ In c (list_ascii_of_string "abcdefghijklmnopqrstuvwxyz0123456789_")).
Proof.
  split; [apply slug_all|]. split; [|split].
  - unfold slug, Text.lower. by rewrite !TextFacts.length_map.
  - apply slug_fixed, slug_all.
  - intros c. destruct c as [[] [] [] [] [] [] [] []]; vm_compute;
      split; try discriminate; try tauto;
      intros H; repeat (destruct H as [H|H]; [discriminate H|]); destruct H.
Qed.

Section CountryDataFacts.




Lemma get_country_data_Some w url code name country_data :
  get_country_data w url code name = Some country_data →
  ∃ page, country_page w url = Ok page ∧
    country_data =
      mkCountryData name code url
        ((λ category, (category, category_indicators page category)) <$> INDICATOR_CATEGORIES)
        (Text.strip <$> p_region_next page) (Text.strip <$> p_income_next page) None.
Proof.
  unfold get_country_data, country_data_body.
  destruct (country_page w url) as [page|e]; simpl; [|done].
  destruct (write_json w _); simpl; [|done].
  intros [= <-]. by exists page.
Qed.

End CountryDataFacts.



(** * Further properties of the normalizer *)

#[local] Set Warnings "-clear-no-such-hyp".

Section NormalizerComposition.

Implicit Types (seen : gset string) (occs : list (string * Indicator)).

Lemma occurrences_app d1 d2 :
  occurrences (d1 ++ d2) = occurrences d1 ++ occurrences d2.
Proof. unfold occurrences. apply bind_app. Qed.

Lemma add_indicator_fold_first occs acc :
  fold_left add_indicator occs acc =
  acc ++ first_definitions (list_to_set (i_indicator_code <$> acc)) occs.
Proof.
  revert acc. induction occs as [|o occs IH]; intros acc; cbn [fold_left first_definitions].
  - by rewrite app_nil_r.
  - destruct (decide (occ_code o ∈ _)) as [Hin|Hnot].
    + rewrite elem_of_list_to_set in Hin. apply indicator_exists_spec in Hin.
      by rewrite (add_indicator_old _ _ Hin), IH.
    + rewrite elem_of_list_to_set in Hnot.
      assert (indicator_exists acc (occ_code o) = false) as E.
      { destruct (indicator_exists acc (occ_code o)) eqn:E; [|done].
        by apply indicator_exists_spec in E. }
      rewrite (add_indicator_new _ _ E), IH, <- app_assoc. f_equal.
      rewrite fmap_app, list_to_set_app_L. simpl.
      f_equal. f_equal. set_solver.
Qed.

Lemma first_definitions_app seen occs1 occs2 :
  first_definitions seen (occs1 ++ occs2) =
  first_definitions seen occs1 ++
  first_definitions (seen ∪ list_to_set (occ_code <$> occs1)) occs2.
Proof.
  revert seen. induction occs1 as [|o occs1 IH]; intros seen; simpl.
  - f_equal. set_solver.
  - destruct (decide (occ_code o ∈ seen)) as [Hin|Hnot].
    + rewrite IH. f_equal. f_equal. set_solver.
    + rewrite IH. simpl. f_equal. f_equal. f_equal. set_solver.
Qed.

Lemma first_definitions_filter seen extra occs :
  filter (λ r, i_indicator_code r ∉ extra) (first_definitions seen occs) =
  first_definitions (seen ∪ extra) occs.
Proof.
  revert seen. induction occs as [|o occs IH]; intros seen; simpl; [done|].
  destruct (decide (occ_code o ∈ seen)) as [Hin|Hnot].
  - rewrite decide_True by set_solver. apply IH.
  - destruct (decide (occ_code o ∈ extra)) as [He|He].
    + rewrite filter_cons_False by (simpl; tauto).
      rewrite decide_True by set_solver. rewrite IH. f_equal. set_solver.
    + rewrite filter_cons_True by done.
      rewrite decide_False by set_solver. rewrite IH. f_equal. f_equal. set_solver.
Qed.

Lemma first_definitions_codes seen occs :
  list_to_set (i_indicator_code <$> first_definitions seen occs) ∪ seen =
  list_to_set (occ_code <$> occs) ∪ seen.
Proof.
  revert seen. induction occs as [|o occs IH]; intros seen; [done|].
  cbn [first_definitions]. rewrite fmap_cons, list_to_set_cons.
  destruct (decide (occ_code o ∈ seen)) as [Hin|Hnot].
  - rewrite IH. set_solver.
  - rewrite fmap_cons, list_to_set_cons.
    change (i_indicator_code (new_indicator o.1 o.2)) with (occ_code o).
    specialize (IH (seen ∪ {[occ_code o]})).
    apply set_eq; intros x. pose proof (proj1 (set_eq _ _) IH x) as Hx.
    rewrite !elem_of_union, !elem_of_singleton in *. tauto.
Qed.

End NormalizerComposition.

(** X7: normalizing a concatenation of two batches of country records gives
    the country rows and value rows of the first batch followed by those of
    the second, and the indicator rows of the first batch followed by those
    indicator rows of the second whose code the first batch did not define. *)
Theorem process_data_app (d1 d2 : list CountryData) :
  t_countries (process_data_for_db (d1 ++ d2)) =
    t_countries (process_data_for_db d1) ++ t_countries (process_data_for_db d2) ∧
  t_indicator_values (process_data_for_db (d1 ++ d2)) =
    t_indicator_values (process_data_for_db d1) ++
    t_indicator_values (process_data_for_db d2) ∧
  t_indicators (process_data_for_db (d1 ++ d2)) =
    t_indicators (process_data_for_db d1) ++
    filter (λ r, i_indicator_code r ∉
                 (i_indicator_code <$> t_indicators (process_data_for_db d1)))
           (t_indicators (process_data_for_db d2)).
Proof.
  rewrite !countries_of_process, !values_of_process, !indicators_of_process.
  split; [apply fmap_app|]. split; [apply value_rows_app|].
  rewrite occurrences_app, !add_indicator_fold_first. simpl.
  rewrite first_definitions_app. f_equal.
  rewrite (list_filter_iff _
    (λ r, i_indicator_code r ∉
          (list_to_set (i_indicator_code <$> first_definitions ∅ (occurrences d1))
             : gset string))).
  2:{ intros r. by rewrite elem_of_list_to_set. }
  rewrite first_definitions_filter. f_equal.
  pose proof (first_definitions_codes ∅ (occurrences d1)) as H.
  set_solver.
Qed.

Lemma value_rows_origin (countries_data : list CountryData) (v : ValueRow) :
  v ∈ t_indicator_values (process_data_for_db countries_data) →
  ∃ country entry i, country ∈ countries_data ∧ entry ∈ cd_indicators country ∧
    i ∈ entry.2 ∧ value_row_of (cd_code country) i = Some v.
Proof.
  rewrite values_of_process. unfold value_rows.
  intros (country & Hv & Hcountry)%list_elem_of_bind.
  apply list_elem_of_bind in Hv as (entry & Hv & Hentry).
  apply list_elem_of_omap in Hv as (i & Hi & Hrow).
  by exists country, entry, i.
Qed.

Lemma occurrence_defined (countries_data : list CountryData) country entry i :
  country ∈ countries_data → entry ∈ cd_indicators country → i ∈ entry.2 →
  ind_code i ∈ (i_indicator_code <$> t_indicators (process_data_for_db countries_data)).
Proof.
  intros Hcountry Hentry Hi. rewrite indicators_of_process.
  destruct (add_indicator_fold_spec (occurrences countries_data) [])
    as (_ & Hcodes & _); [apply NoDup_nil_2|].
  apply Hcodes. right. apply list_elem_of_fmap. exists (entry.1, i).
  split; [done|]. unfold occurrences.
  apply list_elem_of_bind. exists country. split; [|done].
  apply list_elem_of_bind. exists entry. split; [|done].
  by apply list_elem_of_fmap_2.
Qed.

Lemma value_row_of_fields cc i v :
  value_row_of cc i = Some v →
  v_country_code v = cc ∧ v_indicator_code v = ind_code i ∧
  ind_year i = Some (v_year v) ∧ v_year v ≠ 0.
Proof.
  unfold value_row_of.
  destruct (ind_value i) as [raw|]; [|done].
  destruct (truthy_year (ind_year i)) as [year|] eqn:Ey; [|done].
  destruct (coerce_value raw) as [value|]; [|done].
  intros [= <-]. cbn [v_country_code v_indicator_code v_year].
  unfold truthy_year in Ey. destruct (ind_year i) as [y|]; [|done].
  destruct (y =? 0) eqn:E0; [done|]. injection Ey as <-.
  repeat split; try done. by apply Z.eqb_neq.
Qed.

(** X8: the value rows the normalizer emits satisfy referential integrity
    within its own output: each one carries the code of an emitted country row
    and the code of an emitted indicator row, and its year is not 0. *)
Theorem process_data_referential_integrity (countries_data : list CountryData)
    (v : ValueRow) :
  v ∈ t_indicator_values (process_data_for_db countries_data) →
  v_country_code v ∈ (c_country_code <$> t_countries (process_data_for_db countries_data)) ∧
  v_indicator_code v ∈
    (i_indicator_code <$> t_indicators (process_data_for_db countries_data)) ∧
  v_year v ≠ 0.
Proof.
  intros (country & entry & i & Hcountry & Hentry & Hi & Hrow)%value_rows_origin.
  destruct (value_row_of_fields _ _ _ Hrow) as (Hcc & Hcode & _ & Hyear).
  split; [|split; [|done]].
  - rewrite countries_of_process, Hcc.
    apply list_elem_of_fmap. exists (country_row country). split; [done|].
    by apply list_elem_of_fmap_2.
  - rewrite Hcode. by eapply occurrence_defined.
Qed.

Lemma process_data_referential_integrity_witness :
  "gdp" ∈ (i_indicator_code <$> t_indicators (process_data_for_db [brazil_twice])).
Proof.
  exact (proj1 (proj2 (process_data_referential_integrity [brazil_twice]
    (mkValueRow "BRA" "gdp" 2020 (Qmake 14447 10)) (list_elem_of_here _ _)))).
Defined.

Section DecimalTexts.









End DecimalTexts.



(** * Further properties of the loader *)

Section LoaderFacts.

Lemma load_outcome w db cs ids vs :
  create_database_from_data w db cs ids vs =
  if db_raises w StepConnect || db_raises w StepSchema then (false, db)
  else if db_raises w StepCountries then (false, db)
  else
    let db1 := set_countries cs db in
    if negb (df_empty ids) && db_raises w StepIndicators then (false, db1)
    else
      let db2 := if df_empty ids then db1 else set_indicators ids db1 in
      if negb (df_empty vs) && db_raises w StepValues then (false, db2)
      else
        let db3 := if df_empty vs then db2 else set_indicator_values vs db2 in
        (negb (db_raises w StepIndexes), db3).
Proof.
  unfold create_database_from_data, create_database_body, to_sql, execute.
  unfold mbind, DB_bind, mret, DB_ret.
  destruct (db_raises w StepConnect); simpl; [done|].
  destruct (db_raises w StepSchema); simpl; [done|].
  destruct (db_raises w StepCountries); simpl; [done|].
  destruct ids as [|i ids]; simpl.
  - destruct vs as [|v vs]; simpl.
    + by destruct (db_raises w StepIndexes).
    + destruct (db_raises w StepValues); simpl; [done|].
      by destruct (db_raises w StepIndexes).
  - destruct (db_raises w StepIndicators); simpl; [done|].
    destruct vs as [|v vs]; simpl.
    + by destruct (db_raises w StepIndexes).
    + destruct (db_raises w StepValues); simpl; [done|].
      by destruct (db_raises w StepIndexes).
Qed.

End LoaderFacts.

(** X10: loading is idempotent: repeating a successful load of the same
    three collections succeeds again and leaves the store as the first load
    left it. *)
Theorem load_idempotent (w : World) (db db' : Store)
    (cs : list CountryRow) (ids : list IndicatorRow) (vs : list ValueRow) :
  create_database_from_data w db cs ids vs = (true, db') →
  create_database_from_data w db' cs ids vs = (true, db').
Proof.
  rewrite !load_outcome.
  destruct (db_raises w StepConnect), (db_raises w StepSchema),
    (db_raises w StepCountries); simpl; try discriminate.
  destruct ids as [|i ids], vs as [|v vs]; simpl;
    repeat match goal with
           | |- context [db_raises w ?s] => destruct (db_raises w s); simpl
           end;
    try discriminate; by intros [= <-].
Qed.

Lemma load_idempotent_witness :
  create_database_from_data (calm_world [] (λ _, Raise RequestException))
    earlier_store [brazil_row] [] [] = (true, earlier_store).
Proof.
  exact (load_idempotent (calm_world [] (λ _, Raise RequestException))
           earlier_store earlier_store [brazil_row] [] [] eq_refl).
Defined.



(** X12: when the normalizer emitted at least one value row, a successful
    load of its output leaves the store holding exactly its three
    collections, nothing of an earlier run remaining. *)
Theorem load_normalized_replaces_store (w : World) (db db' : Store)
    (countries_data : list CountryData) :
  t_indicator_values (process_data_for_db countries_data) ≠ [] →
  create_database_from_data w db
    (t_countries (process_data_for_db countries_data))
    (t_indicators (process_data_for_db countries_data))
    (t_indicator_values (process_data_for_db countries_data)) = (true, db') →
  db' = mkStore (t_countries (process_data_for_db countries_data))
                (t_indicators (process_data_for_db countries_data))
                (t_indicator_values (process_data_for_db countries_data)).
Proof.
  intros Hvs Hload.
  assert (t_indicators (process_data_for_db countries_data) ≠ []) as Hids.
  { destruct (t_indicator_values (process_data_for_db countries_data))
      as [|v vs] eqn:E; [done|].
    destruct (value_rows_origin countries_data v)
      as (country & entry & i & Hcountry & Hentry & Hi & _).
    { rewrite E. apply list_elem_of_here. }
    pose proof (occurrence_defined _ _ _ _ Hcountry Hentry Hi) as Hin.
    intros Hnil. rewrite Hnil in Hin. by apply elem_of_nil in Hin. }
  rewrite load_outcome in Hload.
  destruct (t_indicators (process_data_for_db countries_data)) as [|i ids]; [done|].
  destruct (t_indicator_values (process_data_for_db countries_data)) as [|v vs]; [done|].
  revert Hload. simpl.
  repeat match goal with
         | |- context [db_raises w ?s] => destruct (db_raises w s); simpl
         end; try discriminate.
  by intros [= <-].
Qed.

Lemma load_normalized_replaces_store_witness :
  (create_database_from_data (calm_world [] (λ _, Raise RequestException))
     earlier_store
     (t_countries (process_data_for_db [brazil_twice]))
     (t_indicators (process_data_for_db [brazil_twice]))
     (t_indicator_values (process_data_for_db [brazil_twice]))).2 =
  mkStore (t_countries (process_data_for_db [brazil_twice]))
          (t_indicators (process_data_for_db [brazil_twice]))
          (t_indicator_values (process_data_for_db [brazil_twice])).
Proof.
  apply (load_normalized_replaces_store
           (calm_world [] (λ _, Raise RequestException)) earlier_store _ [brazil_twice]).
  - discriminate.
  - reflexivity.
Defined.

(** * Further properties of the pipeline *)

Section PipelineFacts.

Lemma py_slice_to_sublist {A} (limit : Z) (l : list A) : py_slice_to limit l `sublist_of` l.
Proof. unfold py_slice_to. destruct (0 <=? limit); apply sublist_take. Qed.

Lemma get_country_list_NoDup w : NoDup (l_code <$> get_country_list w).
Proof.
  destruct (get_country_list_cases w) as [->|(anchors & ->)]; [apply NoDup_nil_2|].
  by destruct (unique_links_spec (candidates anchors)) as (? & _).
Qed.

Lemma setup_data_outcome w db limit :
  setup_data w db limit =
  let countries_data :=
    omap (λ c, get_country_data w (l_url c) (l_code c) (l_name c))
         (py_slice_to limit (get_country_list w)) in
  if df_empty (get_country_list w) then (false, db)
  else if df_empty countries_data then (false, db)
  else create_database_from_data w db
         (t_countries (process_data_for_db countries_data))
         (t_indicators (process_data_for_db countries_data))
         (t_indicator_values (process_data_for_db countries_data)).
Proof. unfold setup_data. by rewrite collect_country_fold. Qed.

Lemma collected_codes w (links : list CountryLink) :
  cd_code <$> omap (λ c, get_country_data w (l_url c) (l_code c) (l_name c)) links
  `sublist_of` (l_code <$> links).
Proof.
  induction links as [|c links IH]; [done|]. cbn [omap list_omap].
  destruct (get_country_data w (l_url c) (l_code c) (l_name c)) as [d|] eqn:E.
  - apply get_country_data_Some in E as (page & _ & ->).
    rewrite !fmap_cons. cbn [cd_code]. by apply sublist_skip.
  - rewrite fmap_cons. by apply sublist_cons.
Qed.

End PipelineFacts.

(** X13: when the country list comes back empty, or no listed country
    yields a record, the pipeline reports failure and the command exits with
    status 1, leaving the store exactly as it was. *)
Theorem run_without_data_fails (w : World) (db : Store) (limit : Z)
    (argv : list string) :
  get_country_list w = [] ∨
  (∀ c, c ∈ get_country_list w →
        get_country_data w (l_url c) (l_code c) (l_name c) = None) →
  setup_data w db limit = (false, db) ∧ main w db argv = (1, db).
Proof.
  intros Hnone.
  assert (∀ limit', setup_data w db limit' = (false, db)) as Hfail.
  { intros limit'. rewrite setup_data_outcome.
    destruct Hnone as [->|Hnone]; [done|]. cbv zeta.
    destruct (df_empty (get_country_list w)); [done|].
    assert (omap (λ c, get_country_data w (l_url c) (l_code c) (l_name c))
              (py_slice_to limit' (get_country_list w)) = []) as ->; [|done].
    pose proof (py_slice_to_sublist limit' (get_country_list w)) as Hsub.
    induction (py_slice_to limit' (get_country_list w)) as [|c l IH]; [done|].
    cbn [omap list_omap]. rewrite Hnone.
    - apply IH. etrans; [by apply sublist_cons|done].
    - eapply elem_of_sublist; [apply list_elem_of_here|done]. }
  split; [apply Hfail|]. unfold main. by rewrite Hfail.
Qed.

Lemma run_without_data_fails_witness :
  main (calm_world flag_then_name (λ _, Raise RequestException)) earlier_store
    ["setup.py"; "3"] = (1, earlier_store).
Proof.
  apply (run_without_data_fails
           (calm_world flag_then_name (λ _, Raise RequestException))
           earlier_store 0 ["setup.py"; "3"]).
  right. intros c _. reflexivity.
Defined.

(** X14: a limit of 0, or a negative limit that reaches back past the start
    of the country list, selects no country: the pipeline reports failure and
    the store is left as it was. *)
Theorem setup_data_empty_slice (w : World) (db : Store) (limit : Z) :
  limit = 0 ∨ limit ≤ - Z.of_nat (length (get_country_list w)) →
  py_slice_to limit (get_country_list w) = [] ∧
  setup_data w db limit = (false, db).
Proof.
  intros Hlimit.
  assert (py_slice_to limit (get_country_list w) = []) as Hslice.
  { unfold py_slice_to. destruct (0 <=? limit) eqn:E.
    - apply Z.leb_le in E. destruct Hlimit as [->|Hneg]; [done|].
      destruct (get_country_list w); simpl in *; [by rewrite take_nil|lia].
    - apply Z.leb_gt in E. destruct Hlimit as [->|Hneg]; [lia|].
      replace (length (get_country_list w) - Z.to_nat (- limit))%nat with 0%nat by lia.
      done. }
  split; [done|]. rewrite setup_data_outcome, Hslice. cbv zeta. simpl.
  by destruct (df_empty _).
Qed.

Lemma setup_data_empty_slice_witness :
  setup_data (calm_world flag_then_name (λ _, Ok mixed_section_page)) earlier_store (-1)
    = (false, earlier_store).
Proof.
  apply (setup_data_empty_slice
           (calm_world flag_then_name (λ _, Ok mixed_section_page)) earlier_store (-1)).
  right. vm_compute. discriminate.
Defined.

(** X15: after a successful run the countries table holds between one row
    and, for a non-negative limit, [limit] rows; their codes are pairwise
    distinct and appear in the order of the country list. *)
Theorem setup_data_countries_table (w : World) (db db' : Store) (limit : Z) :
  setup_data w db limit = (true, db') →
  NoDup (c_country_code <$> tbl_countries db') ∧
  (c_country_code <$> tbl_countries db') `sublist_of` (l_code <$> get_country_list w) ∧
  (1 ≤ length (tbl_countries db'))%nat ∧
  (0 ≤ limit → Z.of_nat (length (tbl_countries db')) ≤ limit).
Proof.
  rewrite setup_data_outcome. cbv zeta.
  destruct (df_empty (get_country_list w)); [done|].
  remember (py_slice_to limit (get_country_list w)) as links eqn:Hlinks.
  remember (omap (λ c, get_country_data w (l_url c) (l_code c) (l_name c)) links)
    as countries_data eqn:Hdata.
  destruct (df_empty countries_data) eqn:Eempty; [done|].
  rewrite load_outcome.
  destruct (db_raises w StepConnect || db_raises w StepSchema); [done|].
  destruct (db_raises w StepCountries); [done|].
  assert (tbl_countries db' = country_row <$> countries_data →
          NoDup (c_country_code <$> tbl_countries db') ∧
          (c_country_code <$> tbl_countries db') `sublist_of` (l_code <$> get_country_list w) ∧
          (1 ≤ length (tbl_countries db'))%nat ∧
          (0 ≤ limit → Z.of_nat (length (tbl_countries db')) ≤ limit)) as Hgoal.
  { intros ->. rewrite <- list_fmap_compose.
    change (c_country_code ∘ country_row) with cd_code.
    assert ((cd_code <$> countries_data) `sublist_of` (l_code <$> get_country_list w)) as Hsub.
    { rewrite Hdata, Hlinks. etrans; [apply collected_codes|].
      apply fmap_sublist, py_slice_to_sublist. }
    split; [|split; [done|split]].
    - eapply sublist_NoDup; [apply get_country_list_NoDup|done].
    - rewrite length_fmap. destruct countries_data; [done|simpl; lia].
    - intros Hlimit. rewrite length_fmap.
      assert (length countries_data ≤ length links)%nat as Hle.
      { pose proof (sublist_length _ _ (collected_codes w links)) as H.
        rewrite !length_fmap in H. by rewrite Hdata. }
      assert (length links ≤ Z.to_nat limit)%nat as Hle'.
      { rewrite Hlinks, py_slice_to_nonneg by done.
        rewrite length_take. lia. }
      lia. }
  rewrite countries_of_process.
  destruct (negb _ && db_raises w StepIndicators); [done|].
  destruct (negb _ && db_raises w StepValues); [done|].
  intros [= _ <-]. apply Hgoal.
  by destruct (df_empty (t_indicators _)), (df_empty (t_indicator_values _)).
Qed.

Lemma setup_data_countries_table_witness :
  NoDup (c_country_code <$> tbl_countries
    (setup_data (calm_world flag_then_name (λ _, Ok mixed_section_page))
       earlier_store 5).2).
Proof.
  exact (proj1 (setup_data_countries_table
    (calm_world flag_then_name (λ _, Ok mixed_section_page)) earlier_store
    (setup_data (calm_world flag_then_name (λ _, Ok mixed_section_page))
       earlier_store 5).2 5 eq_refl)).
Defined.

(** * Properties of the query service *)

Section CountryLookup.

Lemma find_country_Some db cc c :
  find_country db cc = Some c ↔ first_country db cc c.
Proof.
  unfold find_country, first_country.
  induction (tbl_countries db) as [|x l IH]; simpl.
  - split; [done|]. intros (b & a & H & _). by destruct b.
  - destruct (bool_decide (c_country_code x = cc)) eqn:E.
    + apply bool_decide_eq_true_1 in E. split.
      * intros [= <-]. exists [], l. split; [done|]. split; [done|].
        rewrite fmap_nil. apply not_elem_of_nil.
      * intros (b & a & Heq & Hc & Hb). destruct b as [|y b].
        -- by injection Heq as ->.
        -- injection Heq as -> _. exfalso. apply Hb.
           rewrite fmap_cons. rewrite E. apply list_elem_of_here.
    + apply bool_decide_eq_false_1 in E. rewrite IH. split.
      * intros (b & a & -> & Hc & Hb). exists (x :: b), a.
        split; [done|]. split; [done|].
        rewrite fmap_cons, not_elem_of_cons. done.
      * intros (b & a & Heq & Hc & Hb). destruct b as [|y b].
        -- injection Heq as -> _. done.
        -- injection Heq as -> ->. exists b, a. split; [done|]. split; [done|].
           rewrite fmap_cons, not_elem_of_cons in Hb. tauto.
Qed.

Lemma find_country_None db cc :
  find_country db cc = None ↔ cc ∉ (c_country_code <$> tbl_countries db).
Proof.
  unfold find_country.
  induction (tbl_countries db) as [|x l IH]; simpl.
  - split; [intros _; apply not_elem_of_nil|done].
  - rewrite not_elem_of_cons.
    destruct (bool_decide (c_country_code x = cc)) eqn:E.
    + apply bool_decide_eq_true_1 in E. split; [done|]. intros [? _]. done.
    + apply bool_decide_eq_false_1 in E. rewrite IH. split; [|tauto].
      intros ?. split; [congruence|done].
Qed.

End CountryLookup.

(** X16: the three country endpoints agree on which countries exist: each
    answers 404 exactly when no row of the countries table carries the code,
    never with a partial record; otherwise all three return the same country
    row, the first of the table with that code. *)
Theorem country_endpoints_agree (db : Store) (country_code : string)
    (category : option string) :
  (get_country db country_code = HTTPException 404 ↔
   country_code ∉ (c_country_code <$> tbl_countries db)) ∧
  (get_country_profile db country_code = HTTPException 404 ↔
   country_code ∉ (c_country_code <$> tbl_countries db)) ∧
  (get_country_indicators db country_code category = HTTPException 404 ↔
   country_code ∉ (c_country_code <$> tbl_countries db)) ∧
  (∀ country, get_country db country_code = Response country ↔
              first_country db country_code country) ∧
  (∀ country profile,
     get_country_profile db country_code = Response (country, profile) →
     get_country db country_code = Response country) ∧
  (∀ country series,
     get_country_indicators db country_code category = Response (country, series) →
     get_country db country_code = Response country) ∧
  (∀ status, get_country db country_code = HTTPException status → status = 404).
Proof.
  rewrite <- find_country_None.
  unfold get_country, get_country_indicators, get_country_profile.
  change (List.find _ (tbl_countries db)) with (find_country db country_code).
  destruct (find_country db country_code) as [c|] eqn:E.
  - split; [done|]. split; [done|]. split; [done|]. split; [|split; [|split]].
    + intros country. split.
      * intros [= <-]. by apply find_country_Some.
      * intros H%find_country_Some. congruence.
    + by intros country profile [= <- _].
    + by intros country series [= <- _].
    + done.
  - split; [done|]. split; [done|]. split; [done|]. split; [|split; [|split]].
    + intros country. split; [done|].
      intros H%find_country_Some. congruence.
    + done.
    + done.
    + by intros status [= <-].
Qed.

Section Paging.

Lemma limit_offset_length {A} (limit offset : Z) (rows : list A) :
  Z.of_nat (length (limit_offset limit offset rows)) =
  page_length (Z.of_nat (length rows)) offset limit.
Proof.
  unfold limit_offset, page_length.
  destruct (limit <? 0) eqn:E.
  - rewrite length_drop. lia.
  - rewrite length_take, length_drop. lia.
Qed.

Lemma limit_offset_pages {A} (skip l1 l2 : Z) (rows : list A) :
  0 ≤ skip → 0 ≤ l1 → 0 ≤ l2 →
  limit_offset l1 skip rows ++ limit_offset l2 (skip + l1) rows =
  limit_offset (l1 + l2) skip rows.
Proof.
  intros Hs H1 H2. unfold limit_offset.
  assert ((l1 <? 0) = false) as -> by lia.
  assert ((l2 <? 0) = false) as -> by lia.
  assert ((l1 + l2 <? 0) = false) as -> by lia.
  rewrite !Z2Nat.inj_add by done.
  rewrite <- drop_drop. apply take_take_drop.
Qed.

End Paging.

(** X17: the country listing reports the size of the whole table as total,
    whatever the page; the page holds [limit] rows or as many as are left
    after skipping (all that are left for a negative limit, nothing skipped
    for a negative skip); and a parameter outside the 64-bit range makes the
    request fail instead of returning a page. *)
Theorem list_countries_page (db : Store) (skip limit : Z) :
  (int64 limit = true → int64 skip = true →
   ∃ listing, list_countries db skip limit = Returned listing ∧
     total listing = Z.of_nat (length (tbl_countries db)) ∧
     Z.of_nat (length (data listing)) =
       page_length (Z.of_nat (length (tbl_countries db))) skip limit) ∧
  (int64 limit = false ∨ int64 skip = false →
   list_countries db skip limit = OverflowError).
Proof.
  unfold list_countries. split.
  - intros -> ->. eexists. split; [done|]. split; [done|].
    cbn [data]. rewrite length_fmap, limit_offset_length.
    by rewrite (Permutation_length (order_by_perm name_before (tbl_countries db))).
  - intros [->| ->]; [done|]. by rewrite andb_false_r.
Qed.

Lemma list_countries_page_witness :
  ∃ listing, list_countries (mkStore [brazil_row; brazil_row] [] []) 0 1 = Returned listing ∧
    total listing = 2 ∧ Z.of_nat (length (data listing)) = 1.
Proof.
  destruct (proj1 (list_countries_page (mkStore [brazil_row; brazil_row] [] []) 0 1)
              eq_refl eq_refl) as (listing & H1 & H2 & H3).
  exists listing. exact (conj H1 (conj H2 H3)).
Defined.

(** X18: consecutive pages tile the listing: for non-negative parameters,
    the page of [l1] rows at [skip] followed by the page of [l2] rows at
    [skip + l1] is the page of [l1 + l2] rows at [skip], no row missing and
    none repeated. *)
Theorem list_countries_pages_compose (db : Store) (skip l1 l2 : Z)
    (p1 p2 p12 : CountryListing) :
  0 ≤ skip → 0 ≤ l1 → 0 ≤ l2 →
  list_countries db skip l1 = Returned p1 →
  list_countries db (skip + l1) l2 = Returned p2 →
  list_countries db skip (l1 + l2) = Returned p12 →
  data p1 ++ data p2 = data p12 ∧ total p1 = total p12 ∧ total p2 = total p12.
Proof.
  intros Hs H1 H2. unfold list_countries.
  destruct (int64 l1 && int64 skip); [|done].
  destruct (int64 l2 && int64 (skip + l1)); [|done].
  destruct (int64 (l1 + l2) && int64 skip); [|done].
  intros [= <-] [= <-] [= <-]. cbn [data total].
  split; [|done]. by rewrite <- fmap_app, limit_offset_pages.
Qed.

Lemma list_countries_pages_compose_witness :
  ∃ p1 p2 p12,
    list_countries earlier_store 0 1 = Returned p1 ∧
    list_countries earlier_store 1 1 = Returned p2 ∧
    list_countries earlier_store 0 2 = Returned p12 ∧
    data p1 ++ data p2 = data p12.
Proof.
  eexists _, _, _. split; [reflexivity|]. split; [reflexivity|]. split; [reflexivity|].
  refine (proj1 (list_countries_pages_compose earlier_store 0 1 1 _ _ _ _ _ _
                   eq_refl eq_refl eq_refl)); lia || discriminate.
Defined.

Lemma country_endpoints_agree_witness :
  get_country earlier_store "XYZ" = HTTPException 404.
Proof.
  apply (proj1 (country_endpoints_agree earlier_store "XYZ" None)).
  vm_compute. intros H. inversion H as [|? ? ? H']. inversion H'.
Defined.

Section StringOrder.

Lemma ascii_compare_lt_trans a b c :
  Ascii.compare a b = Lt → Ascii.compare b c = Lt → Ascii.compare a c = Lt.
Proof. unfold Ascii.compare. rewrite !N.compare_lt_iff. lia. Qed.

Lemma string_compare_lt_trans a b c :
  String.compare a b = Lt → String.compare b c = Lt → String.compare a c = Lt.
Proof.
  revert b c. induction a as [|x a IH]; intros [|y b] [|z c]; simpl; try done.
  destruct (Ascii.compare x y) eqn:Exy; try done;
    destruct (Ascii.compare y z) eqn:Eyz; try done.
  - apply Ascii.compare_eq_iff in Exy as ->. rewrite Eyz. apply IH.
  - apply Ascii.compare_eq_iff in Exy as ->. by rewrite Eyz.
  - apply Ascii.compare_eq_iff in Eyz as <-. by rewrite Exy.
  - by rewrite (ascii_compare_lt_trans _ _ _ Exy Eyz).
Qed.

Lemma string_compare_refl a : String.compare a a = Eq.
Proof.
  induction a as [|x a IH]; [done|]. simpl.
  assert (Ascii.compare x x = Eq) as ->; [|done].
  unfold Ascii.compare. apply N.compare_refl.
Qed.

Lemma string_compare_Gt a b : String.compare a b = Gt ↔ String.compare b a = Lt.
Proof.
  rewrite (String.compare_antisym a b). destruct (String.compare b a); simpl; split; done.
Qed.

Lemma string_leb_spec a b : String.leb a b = true ↔ a = b ∨ String.compare a b = Lt.
Proof.
  unfold String.leb. destruct (String.compare a b) eqn:E.
  - apply String.compare_eq_iff in E. tauto.
  - tauto.
  - split; [done|]. intros [->|?]; [|done]. by rewrite string_compare_refl in E.
Qed.

Lemma string_leb_trans a b c :
  String.leb a b = true → String.leb b c = true → String.leb a c = true.
Proof.
  rewrite !string_leb_spec. intros [->|Hab] [->|Hbc]; try tauto.
  right. by eapply string_compare_lt_trans.
Qed.

Lemma string_ltb_false a b : String.ltb b a = false ↔ String.leb a b = true.
Proof.
  unfold String.ltb, String.leb. rewrite (String.compare_antisym a b).
  destruct (String.compare b a); simpl; split; done.
Qed.

End StringOrder.

Section StableOrder.

Context {A : Type} (before : A → A → bool).

(** [a] is not after [b]. *)
Let le (a b : A) : Prop := before b a = false.

Hypothesis before_asym : ∀ a b, before a b = true → before b a = false.
Hypothesis le_trans : ∀ a b c, le a b → le b c → le a c.

Lemma insert_by_sorted x l :
  StronglySorted le l → StronglySorted le (insert_by before x l).
Proof.
  induction 1 as [|y l Hl IH Hy]; simpl.
  - repeat constructor.
  - destruct (before y x) eqn:E.
    + constructor; [done|].
      rewrite (Forall_forall (le y)). intros z Hz.
      rewrite (insert_by_perm before x l) in Hz.
      apply elem_of_cons in Hz as [->|Hz].
      * by apply before_asym.
      * rewrite Forall_forall in Hy. by apply Hy.
    + constructor; [by constructor|].
      constructor; [done|].
      eapply Forall_impl; [done|]. intros z Hz. by eapply le_trans.
Qed.

Lemma order_by_sorted l : StronglySorted le (order_by before l).
Proof.
  induction l as [|x l IH]; simpl; [constructor|]. by apply insert_by_sorted.
Qed.

Lemma insert_by_front x l :
  (∀ z, head l = Some z → le x z) → insert_by before x l = x :: l.
Proof.
  destruct l as [|z l]; [done|]. simpl. intros H.
  unfold le in H. by rewrite (H z eq_refl).
Qed.

Lemma insert_by_filter (P : A → Prop) `{!∀ a, Decision (P a)} x l :
  StronglySorted le l →
  filter P (insert_by before x l) =
  if decide (P x) then insert_by before x (filter P l) else filter P l.
Proof.
  induction 1 as [|y l Hl IH Hy]; simpl.
  - rewrite filter_cons, filter_nil. by destruct (decide (P x)).
  - destruct (before y x) eqn:E.
    + rewrite !(filter_cons _ y), IH.
      destruct (decide (P y)), (decide (P x)); simpl; try done. by rewrite E.
    + rewrite (filter_cons _ x). destruct (decide (P x)); [|done].
      rewrite insert_by_front; [done|].
      intros z Hz.
      assert (z ∈ filter P (y :: l)) as Hin.
      { destruct (filter P (y :: l)); simplify_eq/=. apply list_elem_of_here. }
      apply list_elem_of_filter in Hin as [_ Hin].
      apply elem_of_cons in Hin as [->|Hin]; [done|].
      apply (le_trans x y z); [done|].
      rewrite Forall_forall in Hy. by apply Hy.
Qed.

(** Filtering a stably ordered list is ordering the filtered list. *)
Lemma order_by_filter (P : A → Prop) `{!∀ a, Decision (P a)} l :
  filter P (order_by before l) = order_by before (filter P l).
Proof.
  induction l as [|x l IH]; [done|]. simpl.
  rewrite insert_by_filter by apply order_by_sorted.
  rewrite filter_cons, IH. by destruct (decide (P x)).
Qed.

End StableOrder.

Lemma StronglySorted_sublist {A} (R : A → A → Prop) (l1 l2 : list A) :
  l1 `sublist_of` l2 → StronglySorted R l2 → StronglySorted R l1.
Proof.
  induction 1 as [|x l1 l2 Hsub IH|x l1 l2 Hsub IH]; intros Hs; [done|..].
  - apply StronglySorted_inv in Hs as [Hs Hx]. constructor; [by apply IH|].
    rewrite Forall_forall in Hx |- *. intros z Hz. apply Hx.
    by eapply elem_of_sublist.
  - apply StronglySorted_inv in Hs as [Hs _]. by apply IH.
Qed.

Lemma StronglySorted_fmap_2 {A B} (R : A → A → Prop) (R' : B → B → Prop)
    (f : A → B) (l : list A) :
  (∀ a b, R a b → R' (f a) (f b)) →
  StronglySorted R l → StronglySorted R' (f <$> l).
Proof.
  intros Hf Hsorted. induction Hsorted as [|x l' Hl IH Hx]; [constructor|].
  rewrite fmap_cons. constructor; [done|].
  rewrite Forall_forall in Hx. rewrite Forall_forall. intros z Hz.
  apply list_elem_of_fmap in Hz as (a & -> & Ha).
  by apply Hf, Hx.
Qed.

Lemma StronglySorted_weaken {A} (R R' : A → A → Prop) (l : list A) :
  (∀ a b, R a b → R' a b) → StronglySorted R l → StronglySorted R' l.
Proof.
  intros HR Hs. rewrite <- (list_fmap_id l).
  by apply (StronglySorted_fmap_2 R R' id).
Qed.

Lemma limit_offset_sublist {A} (limit offset : Z) (rows : list A) :
  limit_offset limit offset rows `sublist_of` rows.
Proof.
  unfold limit_offset. destruct (limit <? 0).
  - apply sublist_drop.
  - etrans; [apply sublist_take|apply sublist_drop].
Qed.

(** X19: every page of the country listing is in ascending order of name
    (bytewise comparison), and a page that skips nothing and has no limit, or
    a limit of at least the table size, holds every country exactly once. *)
Theorem list_countries_sorted (db : Store) (skip limit : Z) (listing : CountryListing) :
  list_countries db skip limit = Returned listing →
  StronglySorted (λ a b, String.leb (cs_name a) (cs_name b) = true) (data listing) ∧
  (skip ≤ 0 → limit < 0 ∨ Z.of_nat (length (tbl_countries db)) ≤ limit →
   data listing ≡ₚ summary <$> tbl_countries db).
Proof.
  unfold list_countries. destruct (int64 limit && int64 skip); [|done].
  intros [= <-]. cbn [data]. split.
  - apply (StronglySorted_fmap_2 (λ a b, name_before b a = false)).
    { intros a b. unfold name_before. apply string_ltb_false. }
    eapply StronglySorted_sublist; [apply limit_offset_sublist|].
    apply order_by_sorted.
    + intros a b. unfold name_before, String.ltb.
      rewrite (String.compare_antisym a.(c_name) b.(c_name)).
      by destruct (String.compare (c_name b) (c_name a)).
    + intros a b c. unfold name_before. rewrite !string_ltb_false.
      apply string_leb_trans.
  - intros Hskip Hlimit. apply fmap_Permutation.
    rewrite <- (order_by_perm name_before (tbl_countries db)) at 2.
    unfold limit_offset.
    replace (Z.to_nat skip) with 0%nat by lia. rewrite drop_0.
    destruct (limit <? 0) eqn:E; [done|].
    rewrite take_ge; [done|].
    rewrite (Permutation_length (order_by_perm name_before (tbl_countries db))).
    lia.
Qed.

Lemma list_countries_sorted_witness :
  ∃ listing, list_countries earlier_store 0 (-1) = Returned listing ∧
    data listing ≡ₚ summary <$> tbl_countries earlier_store.
Proof.
  eexists. split; [reflexivity|].
  refine (proj2 (list_countries_sorted earlier_store 0 (-1) _ eq_refl) _ _); lia.
Defined.

Section CategoryCounts.

Context {A : Type} `{!EqDecision A}.

Lemma sum_hits (x : A) (D : list A) :
  NoDup D → x ∈ D →
  sum_list_with (λ c, if decide (x = c) then 1 else 0)%nat D = 1%nat.
Proof.
  induction 1 as [|y D Hy Hnd IH]; [by intros ?%elem_of_nil|].
  intros [->|Hx]%elem_of_cons; simpl.
  - rewrite decide_True by done. f_equal.
    clear IH Hnd. induction D as [|z D IH]; [done|]. simpl.
    rewrite not_elem_of_cons in Hy. destruct Hy as [Hz Hy].
    rewrite decide_False by done. by apply IH.
  - rewrite decide_False by (intros ->; done). by apply IH.
Qed.

Lemma occurrences_of_cons x (l : list A) c :
  occurrences_of (x :: l) c = ((if decide (x = c) then 1 else 0) + occurrences_of l c)%nat.
Proof. unfold occurrences_of. rewrite filter_cons. by destruct (decide (x = c)). Qed.

Lemma sum_list_with_plus (f g : A → nat) (D : list A) :
  sum_list_with (λ c, f c + g c)%nat D = (sum_list_with f D + sum_list_with g D)%nat.
Proof. induction D as [|y D IH]; [done|]. simpl. rewrite IH. lia. Qed.

Lemma sum_list_with_ext (f g : A → nat) (D : list A) :
  (∀ c, f c = g c) → sum_list_with f D = sum_list_with g D.
Proof. intros H. induction D as [|y D IH]; [done|]. simpl. by rewrite H, IH. Qed.

Lemma sum_occurrences (l D : list A) :
  NoDup D → (∀ x, x ∈ l → x ∈ D) →
  sum_list_with (occurrences_of l) D = length l.
Proof.
  intros Hnd. induction l as [|x l IH]; intros Hin.
  - clear. induction D as [|y D IH]; [done|]. simpl. by rewrite IH.
  - rewrite (sum_list_with_ext _ _ D (occurrences_of_cons x l)).
    rewrite sum_list_with_plus, sum_hits, IH; [done|..].
    + intros y Hy. by apply Hin, list_elem_of_further.
    + done.
    + apply Hin, list_elem_of_here.
Qed.

End CategoryCounts.

(** X20: the category summary lists every category that occurs in the
    indicators table exactly once (rows without category form a group of their
    own), each with the number of indicator rows that carry it; the counts are
    in descending order and add up to the size of the table. *)
Theorem indicator_categories_counts (db : Store) :
  NoDup (fst <$> get_indicator_categories db) ∧
  (∀ category n, (category, n) ∈ get_indicator_categories db ↔
     category ∈ (i_category <$> tbl_indicators db) ∧
     n = length (filter (λ i, i_category i = category) (tbl_indicators db))) ∧
  (∀ category n, (category, n) ∈ get_indicator_categories db → (1 ≤ n)%nat) ∧
  StronglySorted (λ a b, (b.2 ≤ a.2)%nat) (get_indicator_categories db) ∧
  sum_list_with snd (get_indicator_categories db) = length (tbl_indicators db).
Proof.
  unfold get_indicator_categories.
  set (categories := i_category <$> tbl_indicators db).
  set (groups := (λ c, (c, length (filter (λ c', c' = c) categories)))
                   <$> remove_dups categories).
  assert (fst <$> groups = remove_dups categories) as Hfst.
  { unfold groups. rewrite <- list_fmap_compose. apply list_fmap_id. }
  assert (∀ c, length (filter (λ c', c' = c) categories) =
               length (filter (λ i, i_category i = c) (tbl_indicators db))) as Hcount.
  { intros c. unfold categories. clear.
    induction (tbl_indicators db) as [|i l IH]; [done|].
    rewrite fmap_cons, !filter_cons.
    destruct (decide (i_category i = c)); simpl; by rewrite IH. }
  assert (∀ category n, (category, n) ∈ groups ↔
            category ∈ categories ∧
            n = length (filter (λ i, i_category i = category) (tbl_indicators db)))
    as Hmem.
  { intros category n. unfold groups. rewrite list_elem_of_fmap. split.
    - intros (c & [= -> ->] & Hc). rewrite elem_of_remove_dups in Hc.
      by rewrite Hcount.
    - intros [Hc ->]. exists category. rewrite Hcount.
      split; [done|]. by apply elem_of_remove_dups. }
  split; [|split; [|split; [|split]]].
  - rewrite (order_by_perm count_desc groups), Hfst. apply NoDup_remove_dups.
  - intros category n. by rewrite (order_by_perm count_desc groups).
  - intros category n. rewrite (order_by_perm count_desc groups), Hmem.
    intros [Hc ->]. apply list_elem_of_fmap in Hc as (i & -> & Hi).
    assert (i ∈ filter (λ i', i_category i' = i_category i) (tbl_indicators db)) as Hf
      by by apply list_elem_of_filter.
    destruct (filter _ _); [by apply elem_of_nil in Hf|simpl; lia].
  - eapply StronglySorted_weaken; [|apply (order_by_sorted count_desc)].
    + intros a b. unfold count_desc. intros H%Nat.ltb_ge. done.
    + intros a b. unfold count_desc. rewrite Nat.ltb_lt, Nat.ltb_ge. lia.
    + intros a b c. unfold count_desc. rewrite !Nat.ltb_ge. lia.
  - rewrite (order_by_perm count_desc groups).
    transitivity (length categories); [|unfold categories; apply length_fmap].
    rewrite <- (sum_occurrences categories (remove_dups categories)).
    + unfold groups. generalize (remove_dups categories). clear.
      intros l. induction l as [|c l IH]; [done|].
      rewrite fmap_cons. simpl. by rewrite IH.
    + apply NoDup_remove_dups.
    + intros x. by rewrite elem_of_remove_dups.
Qed.

Lemma indicator_categories_counts_witness :
  (1 ≤ 1)%nat.
Proof.
  exact (proj1 (proj2 (proj2 (indicator_categories_counts earlier_store)))
           (Some "economic") 1%nat (list_elem_of_here _ _)).
Defined.

Section ProfileBuckets.

Lemma category_or_other_nonempty category : category_or_other category ≠ "".
Proof. destruct category as [[|c s]|]; done. Qed.

Lemma profile_rows_joined db cc row :
  row ∈ profile_rows db cc →
  ∃ i iv, i ∈ tbl_indicators db ∧ iv ∈ tbl_indicator_values db ∧
    v_country_code iv = cc ∧ v_indicator_code iv = i_indicator_code i ∧
    row = join_row i iv.
Proof.
  rewrite profile_rows_perm. unfold top_rows.
  intros (c & Hrow & _)%list_elem_of_bind.
  destruct (first_max _ _) as [m|] eqn:E; [|by apply elem_of_nil in Hrow].
  apply list_elem_of_singleton in Hrow as ->.
  apply first_max_filter_spec in E as (b & a & Hjoin & Hm & _).
  assert (m ∈ joined db cc) as Hin.
  { rewrite Hjoin. apply elem_of_app. right. apply list_elem_of_here. }
  unfold joined in Hin.
  apply list_elem_of_bind in Hin as (iv & Hin & Hiv).
  destruct (decide (v_country_code iv = cc)); [|by apply elem_of_nil in Hin].
  apply list_elem_of_bind in Hin as (i & Hin & Hi).
  destruct (decide (v_indicator_code iv = i_indicator_code i));
    [|by apply elem_of_nil in Hin].
  apply list_elem_of_singleton in Hin as ->.
  by exists i, iv.
Qed.

Lemma profile_bucket_rows db cc k entries :
  fold_left add_to_profile (profile_rows db cc) ∅ !! k = Some entries →
  entries = profile_entry <$> filter (in_bucket k) (profile_rows db cc) ∧
  filter (in_bucket k) (profile_rows db cc) ≠ [].
Proof.
  rewrite fold_add_to_profile_lookup, lookup_empty.
  destruct (filter (in_bucket k) (profile_rows db cc)); [done|].
  by intros [= <-].
Qed.

End ProfileBuckets.

(** X21: in a country profile no category bucket is empty, no bucket is
    keyed by the empty text, no indicator appears twice in a bucket, and every
    entry of a bucket belongs to an indicator whose category, with null and
    empty read as other, is the key of the bucket. *)
Theorem profile_buckets_well_formed (db : Store) (country_code : string)
    (country : CountryRow) (profile : gmap string (list ProfileEntry))
    (k : string) (entries : list ProfileEntry) :
  get_country_profile db country_code = Response (country, profile) →
  profile !! k = Some entries →
  entries ≠ [] ∧ k ≠ "" ∧
  NoDup (e_indicator_code <$> entries) ∧
  ∀ e, e ∈ entries →
    ∃ i iv, i ∈ tbl_indicators db ∧ iv ∈ tbl_indicator_values db ∧
      v_country_code iv = country_code ∧ v_indicator_code iv = i_indicator_code i ∧
      category_or_other (i_category i) = k ∧
      e = mkProfileEntry (i_indicator_code i) (i_name i) (v_value iv) (v_year iv).
Proof.
  unfold get_country_profile.
  destruct (List.find _ _) as [c|]; [|done].
  intros [= <- <-] (-> & Hne)%profile_bucket_rows.
  split; [|split; [|split]].
  - destruct (filter _ _); done.
  - destruct (filter (in_bucket k) (profile_rows db country_code)) as [|row rows] eqn:E;
      [done|].
    assert (row ∈ filter (in_bucket k) (profile_rows db country_code)) as Hrow
      by (rewrite E; apply list_elem_of_here).
    apply list_elem_of_filter in Hrow as [<- _]. apply category_or_other_nonempty.
  - rewrite <- list_fmap_compose.
    change (e_indicator_code ∘ profile_entry) with j_indicator_code.
    eapply sublist_NoDup; [apply profile_rows_codes_NoDup|].
    apply fmap_sublist, sublist_filter.
  - intros e (row & -> & Hrow)%list_elem_of_fmap.
    apply list_elem_of_filter in Hrow as [Hk Hrow].
    apply profile_rows_joined in Hrow as (i & iv & Hi & Hiv & Hcc & Hcode & ->).
    by exists i, iv.
Qed.

Lemma profile_buckets_well_formed_witness :
  [mkProfileEntry "gdp" "GDP" (Qmake 14447 10) 2020] ≠ [].
Proof.
  exact (proj1 (profile_buckets_well_formed earlier_store "BRA" brazil_row
    {[ "economic" := [mkProfileEntry "gdp" "GDP" (Qmake 14447 10) 2020] ]}
    "economic" [mkProfileEntry "gdp" "GDP" (Qmake 14447 10) 2020]
    eq_refl eq_refl)).
Defined.

Section EndToEnd.

Lemma indicator_row_origin (countries_data : list CountryData) (i : IndicatorRow) :
  i ∈ t_indicators (process_data_for_db countries_data) →
  ∃ country entry ind, country ∈ countries_data ∧ entry ∈ cd_indicators country ∧
    ind ∈ entry.2 ∧ i = new_indicator entry.1 ind.
Proof.
  rewrite indicators_of_process. intros Hi.
  destruct (add_indicator_fold_spec (occurrences countries_data) [])
    as (_ & _ & Hrows); [apply NoDup_nil_2|].
  destruct (Hrows i Hi) as [Hnil|(before & o & after & Hocc & _ & _ & ->)];
    [by apply elem_of_nil in Hnil|].
  assert (o ∈ occurrences countries_data) as Ho.
  { rewrite Hocc. apply elem_of_app. right. apply list_elem_of_here. }
  unfold occurrences in Ho.
  apply list_elem_of_bind in Ho as (country & Ho & Hcountry).
  apply list_elem_of_bind in Ho as (entry & Ho & Hentry).
  apply list_elem_of_fmap in Ho as (ind & -> & Hind).
  by exists country, entry, ind.
Qed.

Lemma setup_data_indicators w db db' limit :
  setup_data w db limit = (true, db') →
  ∃ links,
    tbl_indicators db' =
      match t_indicators (process_data_for_db
              (omap (λ c, get_country_data w (l_url c) (l_code c) (l_name c)) links)) with
      | [] => tbl_indicators db
      | ids => ids
      end.
Proof.
  rewrite setup_data_outcome. cbv zeta.
  destruct (df_empty (get_country_list w)); [done|].
  destruct (df_empty (omap _ _)); [done|].
  rewrite load_outcome.
  destruct (db_raises w StepConnect || db_raises w StepSchema); [done|].
  destruct (db_raises w StepCountries); [done|].
  destruct (negb _ && db_raises w StepIndicators); [done|].
  destruct (negb _ && db_raises w StepValues); [done|].
  intros [= _ <-]. exists (py_slice_to limit (get_country_list w)).
  destruct (t_indicators _), (t_indicator_values _); done.
Qed.

End EndToEnd.

(** X22: after a successful run on a store that held no indicator rows,
    every bucket of every country profile is keyed by one of the four scraped
    categories: nothing the pipeline loads is ever filed under other. *)
Theorem pipeline_profile_categories (w : World) (db db' : Store) (limit : Z)
    (country_code : string) (country : CountryRow)
    (profile : gmap string (list ProfileEntry)) (k : string)
    (entries : list ProfileEntry) :
  tbl_indicators db = [] →
  setup_data w db limit = (true, db') →
  get_country_profile db' country_code = Response (country, profile) →
  profile !! k = Some entries →
  k ∈ ["social"; "economic"; "environment"; "institutions"].
Proof.
  intros Hfresh (links & Hids)%setup_data_indicators.
  unfold get_country_profile.
  destruct (List.find _ _) as [c|]; [|done].
  intros [= <- <-] (-> & Hne)%profile_bucket_rows.
  destruct (filter (in_bucket k) (profile_rows db' country_code)) as [|row rows] eqn:E;
    [done|].
  assert (row ∈ filter (in_bucket k) (profile_rows db' country_code)) as Hrow
    by (rewrite E; apply list_elem_of_here).
  apply list_elem_of_filter in Hrow as [Hk Hrow].
  apply profile_rows_joined in Hrow as (i & iv & Hi & _ & _ & _ & ->).
  rewrite Hids in Hi.
  set (countries_data := omap _ links) in *.
  assert (i ∈ t_indicators (process_data_for_db countries_data)) as Hi'.
  { destruct (t_indicators (process_data_for_db countries_data)); [|done].
    rewrite Hfresh in Hi. by apply elem_of_nil in Hi. }
  apply indicator_row_origin in Hi' as (data & entry & ind & Hdata & Hentry & _ & ->).
  apply list_elem_of_omap in Hdata as (link & _ & Hget).
  apply get_country_data_Some in Hget as (page & _ & ->).
  cbn [cd_indicators] in Hentry.
  apply list_elem_of_fmap in Hentry as (category & -> & Hcategory).
  unfold in_bucket in Hk. cbn in Hk. subst k.
  unfold INDICATOR_CATEGORIES in Hcategory.
  repeat (apply elem_of_cons in Hcategory as [->|Hcategory];
          [vm_compute; repeat constructor|]).
  by apply elem_of_nil in Hcategory.
Qed.

Lemma pipeline_profile_categories_witness :
  "social" ∈ ["social"; "economic"; "environment"; "institutions"].
Proof.
  refine (pipeline_profile_categories
    (calm_world [mkAnchor "/country/BRA" "Brazil"] (λ _, Ok mixed_section_page))
    (mkStore [] [] [])
    (setup_data (calm_world [mkAnchor "/country/BRA" "Brazil"] (λ _, Ok mixed_section_page))
       (mkStore [] [] []) 1).2
    1 "BRA" _ _ "social" _ eq_refl eq_refl eq_refl _).
  vm_compute. reflexivity.
Defined.

Section Series.

Implicit Types (rows : list JoinedRow) (acc : list IndicatorSeries) (seen : gset string).

Lemma series_exists_spec acc code :
  existsb (λ s, String.eqb (is_indicator_code s) code) acc = true ↔
  code ∈ (is_indicator_code <$> acc).
Proof.
  rewrite existsb_exists, list_elem_of_fmap. split.
  - intros (s & Hs & Heq%String.eqb_eq). exists s. split; [done|].
    by apply list_elem_of_In.
  - intros (s & -> & Hs). exists s. split; [by apply list_elem_of_In|].
    apply String.eqb_refl.
Qed.

Lemma append_value_code r s : is_indicator_code (append_value r s) = is_indicator_code s.
Proof. unfold append_value. by destruct (decide _). Qed.

Lemma extend_append r rows s :
  extend_series rows (append_value r s) = extend_series (r :: rows) s.
Proof.
  unfold extend_series, append_value. rewrite filter_cons.
  destruct (decide (is_indicator_code s = j_indicator_code r)) as [Heq|Hne];
    cbn [is_indicator_code is_name is_category is_values].
  - rewrite decide_True by done. rewrite fmap_cons, <- app_assoc. done.
  - rewrite decide_False by congruence. done.
Qed.

Lemma fold_series rows acc :
  fold_left add_to_indicators rows acc =
  (extend_series rows <$> acc) ++
  new_series (list_to_set (is_indicator_code <$> acc)) rows.
Proof.
  revert acc. induction rows as [|r rows IH]; intros acc.
  - cbn [fold_left new_series]. rewrite app_nil_r.
    rewrite <- (list_fmap_id acc) at 1. apply list_fmap_ext.
    intros _ s _. unfold extend_series. simpl. rewrite app_nil_r. by destruct s.
  - cbn [fold_left new_series]. rewrite IH. unfold add_to_indicators.
    assert (∀ l : list IndicatorSeries, is_indicator_code <$> (append_value r <$> l) = is_indicator_code <$> l)
      as Hcodes.
    { intros l. rewrite <- list_fmap_compose. apply list_fmap_ext.
      intros _ s _. apply append_value_code. }
    assert (∀ l : list IndicatorSeries, extend_series rows <$> (append_value r <$> l) =
                 extend_series (r :: rows) <$> l) as Hext.
    { intros l. rewrite <- list_fmap_compose. apply list_fmap_ext.
      intros _ s _. apply extend_append. }
    destruct (existsb _ acc) eqn:E.
    + apply series_exists_spec in E.
      rewrite Hcodes, Hext, decide_True; [done|]. by apply elem_of_list_to_set.
    + assert (j_indicator_code r ∉ (is_indicator_code <$> acc)) as Hnot.
      { intros H%series_exists_spec. congruence. }
      rewrite Hcodes, Hext, decide_False by (by rewrite elem_of_list_to_set).
      rewrite fmap_app, <- app_assoc, list_fmap_singleton. f_equal.
      rewrite fmap_app, list_to_set_app_L, list_fmap_singleton.
      cbn [list_to_set is_indicator_code]. rewrite (right_id_L ∅ (∪)).
      unfold extend_series. cbn [is_indicator_code is_name is_category is_values].
      rewrite filter_cons_True by done. done.
Qed.

(** Each new series starts at the first row of its code and collects the
    rows of that code. *)
Lemma new_series_spec seen rows s :
  s ∈ new_series seen rows →
  (is_indicator_code s ∉ seen) ∧
  ∃ before r after, rows = before ++ r :: after ∧
    j_indicator_code r = is_indicator_code s ∧
    (is_indicator_code s ∉ (j_indicator_code <$> before)) ∧
    is_name s = j_name r ∧ is_category s = j_category r ∧
    is_values s =
      year_value <$> filter (λ r', j_indicator_code r' = is_indicator_code s) rows.
Proof.
  revert seen. induction rows as [|r rows IH]; intros seen; [by intros ?%elem_of_nil|].
  cbn [new_series].
  destruct (decide (j_indicator_code r ∈ seen)) as [Hin|Hnot].
  - intros (Hs & b & r' & a & -> & Hr' & Hb & Hn & Hc & Hv)%IH.
    split; [done|]. exists (r :: b), r', a. split; [done|].
    assert (j_indicator_code r ≠ is_indicator_code s) as Hne by congruence.
    split; [done|]. split.
    { rewrite fmap_cons, not_elem_of_cons. split; [congruence|done]. }
    split; [done|]. split; [done|].
    rewrite filter_cons_False by done. done.
  - intros [->|Hs]%elem_of_cons.
    + cbn [is_indicator_code is_name is_category is_values].
      split; [done|]. exists [], r, rows. split; [done|]. split; [done|].
      split; [rewrite fmap_nil; apply not_elem_of_nil|]. done.
    + apply IH in Hs as (Hs & b & r' & a & -> & Hr' & Hb & Hn & Hc & Hv).
      rewrite not_elem_of_union, not_elem_of_singleton in Hs. destruct Hs as [Hs Hne].
      split; [done|]. exists (r :: b), r', a. split; [done|].
      split; [done|]. split.
      { rewrite fmap_cons, not_elem_of_cons. split; [congruence|done]. }
      split; [done|]. split; [done|].
      rewrite filter_cons_False by congruence. done.
Qed.

Lemma new_series_NoDup seen rows : NoDup (is_indicator_code <$> new_series seen rows).
Proof.
  revert seen. induction rows as [|r rows IH]; intros seen; [apply NoDup_nil_2|].
  cbn [new_series]. destruct (decide _) as [Hin|Hnot]; [apply IH|].
  rewrite fmap_cons. apply NoDup_cons. split; [|apply IH].
  cbn [is_indicator_code]. intros (s & Heq & Hs)%list_elem_of_fmap.
  apply new_series_spec in Hs as [Hs _]. apply Hs. rewrite <- Heq.
  apply elem_of_union. right. by apply elem_of_singleton.
Qed.

Lemma new_series_covers seen rows r :
  r ∈ rows → j_indicator_code r ∉ seen →
  j_indicator_code r ∈ (is_indicator_code <$> new_series seen rows).
Proof.
  revert seen. induction rows as [|r0 rows IH]; intros seen; [by intros ?%elem_of_nil|].
  cbn [new_series]. intros [->|Hr]%elem_of_cons Hnot.
  - rewrite decide_False by done. rewrite fmap_cons. apply list_elem_of_here.
  - destruct (decide (j_indicator_code r0 ∈ seen)); [by apply IH|].
    rewrite fmap_cons. destruct (decide (j_indicator_code r = j_indicator_code r0)) as [->|Hne].
    + apply list_elem_of_here.
    + apply list_elem_of_further. apply IH; [done|].
      rewrite not_elem_of_union, not_elem_of_singleton. done.
Qed.

Lemma indicator_rows_joined db cc category r :
  r ∈ indicator_rows db cc category ↔
  ∃ i iv, i ∈ tbl_indicators db ∧ iv ∈ tbl_indicator_values db ∧
    v_country_code iv = cc ∧ v_indicator_code iv = i_indicator_code i ∧
    category_passes category i ∧ r = join_row i iv.
Proof.
  assert (∀ r, r ∈ joined db cc ↔
            ∃ i iv, i ∈ tbl_indicators db ∧ iv ∈ tbl_indicator_values db ∧
              v_country_code iv = cc ∧ v_indicator_code iv = i_indicator_code i ∧
              r = join_row i iv) as Hjoin.
  { intros r'. unfold joined. rewrite list_elem_of_bind. split.
    - intros (iv & Hr & Hiv).
      destruct (decide (v_country_code iv = cc)); [|by apply elem_of_nil in Hr].
      apply list_elem_of_bind in Hr as (i & Hr & Hi).
      destruct (decide (v_indicator_code iv = i_indicator_code i));
        [|by apply elem_of_nil in Hr].
      apply list_elem_of_singleton in Hr as ->. by exists i, iv.
    - intros (i & iv & Hi & Hiv & Hcc & Hcode & ->). exists iv. split; [|done].
      rewrite decide_True by done. apply list_elem_of_bind. exists i. split; [|done].
      rewrite decide_True by done. apply list_elem_of_here. }
  unfold indicator_rows. rewrite (order_by_perm name_year_before).
  destruct category as [c|]; simpl.
  - destruct c as [|ch rest]; simpl.
    + rewrite Hjoin. split.
      * intros (i & iv & ? & ? & ? & ? & ?). exists i, iv. repeat split; try done. by left.
      * intros (i & iv & ? & ? & ? & ? & _ & ?). by exists i, iv.
    + rewrite list_elem_of_filter, Hjoin. split.
      * intros [Hcat (i & iv & ? & ? & ? & ? & ->)]. exists i, iv.
        repeat split; try done. by right.
      * intros (i & iv & ? & ? & ? & ? & [?|Hcat] & ->); [done|].
        split; [done|]. by exists i, iv.
  - rewrite Hjoin. split.
    + intros (i & iv & ? & ? & ? & ? & ?). by exists i, iv.
    + intros (i & iv & ? & ? & ? & ? & _ & ?). by exists i, iv.
Qed.

End Series.

(** X23: the indicators endpoint returns one series per indicator code;
    the series carries the code, name and category of a stored indicator that
    passes the category parameter, and its values are exactly the
    (year, value) pairs of the country's values of that code whose indicator
    passes the category parameter (an absent or empty parameter lets every
    indicator through, a null category passes no parameter); every such
    value is in the series of its code. *)
Theorem country_indicators_series (db : Store) (country_code : string)
    (category : option string) (country : CountryRow) (series : list IndicatorSeries) :
  get_country_indicators db country_code category = Response (country, series) →
  NoDup (is_indicator_code <$> series) ∧
  (∀ s, s ∈ series →
     is_values s ≠ [] ∧
     ∀ yv, yv ∈ is_values s ↔
       ∃ i iv, i ∈ tbl_indicators db ∧ iv ∈ tbl_indicator_values db ∧
         v_country_code iv = country_code ∧
         v_indicator_code iv = i_indicator_code i ∧
         i_indicator_code i = is_indicator_code s ∧
         category_passes category i ∧ yv = (v_year iv, v_value iv)) ∧
  (∀ i iv, i ∈ tbl_indicators db → iv ∈ tbl_indicator_values db →
     v_country_code iv = country_code → v_indicator_code iv = i_indicator_code i →
     category_passes category i →
     ∃ s, s ∈ series ∧ is_indicator_code s = i_indicator_code i ∧
       (v_year iv, v_value iv) ∈ is_values s) ∧
  (∀ s, s ∈ series →
     ∃ i, i ∈ tbl_indicators db ∧ category_passes category i ∧
       is_indicator_code s = i_indicator_code i ∧
       is_name s = i_name i ∧ is_category s = i_category i).
Proof.
  unfold get_country_indicators.
  destruct (find_country db country_code) as [c|]; [|done].
  intros [= <- <-]. rewrite fold_series. simpl.
  set (rows := indicator_rows db country_code category).
  assert (∀ s yv, s ∈ new_series ∅ rows →
            (yv ∈ is_values s ↔
             ∃ r, r ∈ rows ∧ j_indicator_code r = is_indicator_code s ∧
               yv = year_value r)) as Hvalues.
  { intros s yv (_ & _ & _ & _ & _ & _ & _ & _ & _ & ->)%new_series_spec.
    rewrite list_elem_of_fmap. split.
    - intros (r & -> & [? ?]%list_elem_of_filter). by exists r.
    - intros (r & ? & ? & ->). exists r. split; [done|]. by apply list_elem_of_filter. }
  split; [apply new_series_NoDup|]. split; [|split].
  - intros s Hs. split.
    + apply new_series_spec in Hs as (_ & b & r & a & Hrows & Hr & _ & _ & _ & ->).
      rewrite Hrows, filter_app, filter_cons_True by done.
      rewrite fmap_app, fmap_cons. by destruct (year_value <$> filter _ b).
    + intros yv. rewrite (Hvalues s yv Hs). split.
      * intros (r & Hr%indicator_rows_joined & Hcode & ->).
        destruct Hr as (i & iv & ? & ? & ? & ? & ? & ->). by exists i, iv.
      * intros (i & iv & ? & ? & ? & ? & ? & ? & ->). exists (join_row i iv).
        split; [|done]. apply indicator_rows_joined. by exists i, iv.
  - intros i iv Hi Hiv Hcc Hcode Hpass.
    assert (join_row i iv ∈ rows) as Hr.
    { apply indicator_rows_joined. by exists i, iv. }
    pose proof (new_series_covers ∅ rows _ Hr (not_elem_of_empty _)) as Hs.
    apply list_elem_of_fmap in Hs as (s & Heq & Hs).
    exists s. split; [done|]. split; [done|].
    apply (Hvalues s _ Hs). by exists (join_row i iv).
  - intros s (_ & b & r & a & Hrows & Hr & _ & Hn & Hc & _)%new_series_spec.
    assert (r ∈ rows) as Hin.
    { rewrite Hrows. apply elem_of_app. right. apply list_elem_of_here. }
    apply indicator_rows_joined in Hin as (i & iv & ? & _ & _ & _ & ? & ->).
    by exists i.
Qed.

Lemma country_indicators_series_witness :
  ∃ series,
    get_country_indicators earlier_store "BRA" (Some "") = Response (brazil_row, series) ∧
    NoDup (is_indicator_code <$> series).
Proof.
  eexists. split; [reflexivity|].
  exact (proj1 (country_indicators_series earlier_store "BRA" (Some "") _ _ eq_refl)).
Defined.

Section SeriesOrder.

Lemma name_year_le_spec a b :
  name_year_before b a = false ↔
  String.compare (j_name a) (j_name b) = Lt ∨ (j_name a = j_name b ∧ j_year b ≤ j_year a).
Proof.
  unfold name_year_before. rewrite (String.compare_antisym (j_name b) (j_name a)).
  destruct (String.compare (j_name a) (j_name b)) eqn:E; simpl.
  - apply String.compare_eq_iff in E. rewrite Z.ltb_ge. split.
    + intros ?. by right.
    + by intros [?|[_ ?]].
  - split; [by left|done].
  - split; [done|]. intros [?|[Heq _]]; [done|].
    rewrite Heq, string_compare_refl in E. done.
Qed.

Lemma name_year_before_asym a b :
  name_year_before a b = true → name_year_before b a = false.
Proof.
  rewrite name_year_le_spec. unfold name_year_before.
  destruct (String.compare (j_name a) (j_name b)) eqn:E; [|by left|done].
  apply String.compare_eq_iff in E. intros ?%Z.ltb_lt. right. split; [done|lia].
Qed.

Lemma name_year_le_trans a b c :
  name_year_before b a = false → name_year_before c b = false →
  name_year_before c a = false.
Proof.
  rewrite !name_year_le_spec. intros [Hab|[Hab ?]] [Hbc|[Hbc ?]].
  - left. by eapply string_compare_lt_trans.
  - left. by rewrite <- Hbc.
  - left. by rewrite Hab.
  - right. split; [congruence|lia].
Qed.

Lemma year_desc_asym a b : year_desc a b = true → year_desc b a = false.
Proof. unfold year_desc. rewrite Z.ltb_lt, Z.ltb_ge. lia. Qed.

Lemma year_desc_le_trans a b c :
  year_desc b a = false → year_desc c b = false → year_desc c a = false.
Proof. unfold year_desc. rewrite !Z.ltb_ge. lia. Qed.

Lemma insert_by_ext {A} (f g : A → A → bool) x l :
  (∀ y, y ∈ l → f y x = g y x) → insert_by f x l = insert_by g x l.
Proof.
  induction l as [|y l IH]; intros H; [done|]. simpl.
  rewrite (H y) by apply list_elem_of_here.
  rewrite IH; [done|]. intros z Hz. apply H. by apply list_elem_of_further.
Qed.

Lemma order_by_ext {A} (f g : A → A → bool) l :
  (∀ a b, a ∈ l → b ∈ l → f a b = g a b) → order_by f l = order_by g l.
Proof.
  induction l as [|x l IH]; intros H; [done|]. simpl.
  fold (order_by f l) (order_by g l). rewrite <- IH.
  - apply insert_by_ext. intros y Hy. rewrite (order_by_perm f l) in Hy.
    apply H; [by apply list_elem_of_further|apply list_elem_of_here].
  - intros a b Ha Hb. apply H; by apply list_elem_of_further.
Qed.

Lemma filter_ext_in {A} (P Q : A → Prop) `{!∀ x, Decision (P x)} `{!∀ x, Decision (Q x)}
    (l : list A) :
  (∀ x, x ∈ l → P x ↔ Q x) → filter P l = filter Q l.
Proof.
  induction l as [|x l IH]; intros Hext; [done|].
  rewrite !filter_cons, IH by (intros y Hy; apply Hext; by apply list_elem_of_further).
  pose proof (Hext x (list_elem_of_here _ _)) as Hx.
  destruct (decide (P x)), (decide (Q x)); tauto.
Qed.

Lemma NoDup_fmap_eq {A} (f : A → string) (l : list A) x y :
  NoDup (f <$> l) → x ∈ l → y ∈ l → f x = f y → x = y.
Proof.
  induction l as [|z l IH]; [by intros _ ?%elem_of_nil|].
  rewrite fmap_cons, NoDup_cons. intros [Hz Hl].
  intros [->|Hx]%elem_of_cons [->|Hy]%elem_of_cons Heq; [done| | |by apply IH].
  - destruct Hz. rewrite Heq. apply list_elem_of_fmap. by exists y.
  - destruct Hz. rewrite <- Heq. apply list_elem_of_fmap. by exists x.
Qed.

Lemma joined_spec db cc r :
  r ∈ joined db cc ↔
  ∃ i iv, i ∈ tbl_indicators db ∧ iv ∈ tbl_indicator_values db ∧
    v_country_code iv = cc ∧ v_indicator_code iv = i_indicator_code i ∧
    r = join_row i iv.
Proof.
  rewrite <- (order_by_perm name_year_before (joined db cc)).
  change (order_by name_year_before (joined db cc)) with (indicator_rows db cc None).
  rewrite indicator_rows_joined. split.
  - intros (i & iv & ? & ? & ? & ? & _ & ?). by exists i, iv.
  - intros (i & iv & ? & ? & ? & ? & ?). by exists i, iv.
Qed.

Lemma joined_same_code db cc r1 r2 :
  NoDup (i_indicator_code <$> tbl_indicators db) →
  r1 ∈ joined db cc → r2 ∈ joined db cc →
  j_indicator_code r1 = j_indicator_code r2 →
  j_name r1 = j_name r2 ∧ j_category r1 = j_category r2.
Proof.
  intros Hnd (i1 & iv1 & Hi1 & _ & _ & _ & ->)%joined_spec
    (i2 & iv2 & Hi2 & _ & _ & _ & ->)%joined_spec Hcode.
  cbn [join_row j_indicator_code j_name j_category] in *.
  by rewrite (NoDup_fmap_eq i_indicator_code _ i1 i2 Hnd Hi1 Hi2 Hcode).
Qed.

(** With one description per indicator code, the rows of a code come out of
    the query in descending order of year, rows of equal year in store
    order, and the category parameter keeps all of them or none. *)
Lemma series_rows_by_year db cc category code :
  NoDup (i_indicator_code <$> tbl_indicators db) →
  (∃ r, r ∈ indicator_rows db cc category ∧ j_indicator_code r = code) →
  filter (λ r, j_indicator_code r = code) (indicator_rows db cc category) =
  order_by year_desc (filter (λ r, j_indicator_code r = code) (joined db cc)).
Proof.
  intros Hnd (r0 & Hr0 & Hcode0). unfold indicator_rows in *.
  rewrite (order_by_filter name_year_before name_year_before_asym name_year_le_trans).
  rewrite (order_by_perm name_year_before) in Hr0.
  assert (filter (λ r, j_indicator_code r = code)
            match category with
            | Some c =>
                if Text.is_empty c then joined db cc
                else filter (λ row, j_category row = Some c) (joined db cc)
            | None => joined db cc
            end
          = filter (λ r, j_indicator_code r = code) (joined db cc)) as ->.
  { destruct category as [c|]; [|done]. destruct (Text.is_empty c); [done|].
    apply list_elem_of_filter in Hr0 as [Hcat Hr0].
    rewrite list_filter_filter. apply filter_ext_in. intros x Hx. split; [tauto|].
    intros Hc. split; [done|].
    destruct (joined_same_code db cc x r0 Hnd Hx Hr0) as [_ Heq]; congruence. }
  apply order_by_ext. intros a b [Ha Hina]%list_elem_of_filter [Hb Hinb]%list_elem_of_filter.
  destruct (joined_same_code db cc a b Hnd Hina Hinb) as [Hname _]; [congruence|].
  unfold name_year_before, year_desc. by rewrite Hname, string_compare_refl.
Qed.

Lemma series_values_by_year db cc category country series s :
  NoDup (i_indicator_code <$> tbl_indicators db) →
  get_country_indicators db cc category = Response (country, series) →
  s ∈ series →
  is_values s =
  year_value <$> order_by year_desc
    (filter (λ r, j_indicator_code r = is_indicator_code s) (joined db cc)) ∧
  filter (λ r, j_indicator_code r = is_indicator_code s) (joined db cc) ≠ [].
Proof.
  intros Hnd. unfold get_country_indicators.
  destruct (find_country db cc); [|done]. intros [= <- <-]. rewrite fold_series. simpl.
  intros (_ & b & r & a & Hrows & Hr & _ & _ & _ & ->)%new_series_spec.
  assert (r ∈ indicator_rows db cc category) as Hin.
  { rewrite Hrows. apply elem_of_app. right. apply list_elem_of_here. }
  rewrite series_rows_by_year by (done || by exists r). split; [done|].
  apply indicator_rows_joined in Hin as (i & iv & ? & ? & ? & ? & _ & ->).
  assert (join_row i iv ∈ filter (λ r, j_indicator_code r = is_indicator_code s) (joined db cc))
    as Hne.
  { apply list_elem_of_filter. split; [done|]. apply joined_spec. by exists i, iv. }
  intros Hnil. rewrite Hnil in Hne. by apply elem_of_nil in Hne.
Qed.

End SeriesOrder.

(** X24: when the indicators table holds one description per indicator code,
    the values of every series returned by the indicators endpoint are in
    descending order of year. *)
Theorem country_indicators_years_descend (db : Store) (country_code : string)
    (category : option string) (country : CountryRow) (series : list IndicatorSeries)
    (s : IndicatorSeries) :
  NoDup (i_indicator_code <$> tbl_indicators db) →
  get_country_indicators db country_code category = Response (country, series) →
  s ∈ series →
  StronglySorted (λ a b : Z * Q, b.1 ≤ a.1) (is_values s).
Proof.
  intros Hnd Hget Hs.
  destruct (series_values_by_year _ _ _ _ _ _ Hnd Hget Hs) as [-> _].
  apply (StronglySorted_fmap_2 (λ a b, year_desc b a = false)).
  { intros a b. unfold year_desc, year_value. cbn [fst]. by rewrite Z.ltb_ge. }
  apply order_by_sorted.
  - apply year_desc_asym.
  - apply year_desc_le_trans.
Qed.

Lemma country_indicators_years_descend_witness :
  ∃ s, get_country_indicators two_years_store "BRA" None = Response (brazil_row, [s]) ∧
    is_values s = [(2020, Qmake 14447 10); (2019, Qmake 18731 10)] ∧
    StronglySorted (λ a b : Z * Q, b.1 ≤ a.1) (is_values s).
Proof.
  eexists. split; [reflexivity|]. split; [reflexivity|].
  eapply (country_indicators_years_descend two_years_store "BRA" None brazil_row).
  - apply NoDup_singleton.
  - reflexivity.
  - apply list_elem_of_here.
Defined.

(** X25: when the indicators table holds one description per indicator code,
    every series returned by the indicators endpoint starts with a latest
    value of its indicator for the country: a stored value of that country
    and code whose year no other such value exceeds. *)
Theorem country_indicators_head_latest (db : Store) (country_code : string)
    (category : option string) (country : CountryRow) (series : list IndicatorSeries)
    (s : IndicatorSeries) :
  NoDup (i_indicator_code <$> tbl_indicators db) →
  get_country_indicators db country_code category = Response (country, series) →
  s ∈ series →
  ∃ iv, iv ∈ tbl_indicator_values db ∧
    v_country_code iv = country_code ∧ v_indicator_code iv = is_indicator_code s ∧
    head (is_values s) = Some (v_year iv, v_value iv) ∧
    ∀ r, r ∈ tbl_indicator_values db → v_country_code r = country_code →
      v_indicator_code r = is_indicator_code s → v_year r ≤ v_year iv.
Proof.
  intros Hnd Hget Hs.
  destruct (series_values_by_year _ _ _ _ _ _ Hnd Hget Hs) as [-> Hne].
  assert (has_values db country_code (is_indicator_code s)) as Hv.
  { destruct (filter _ (joined db country_code)) as [|r rest] eqn:E; [done|].
    assert (r ∈ filter (λ r, j_indicator_code r = is_indicator_code s)
                  (joined db country_code)) as Hr.
    { rewrite E. apply list_elem_of_here. }
    apply list_elem_of_filter in Hr as [Hcode Hr].
    apply joined_spec in Hr as (i & iv & ? & ? & ? & ? & ->).
    exists iv, i. cbn [join_row j_indicator_code] in Hcode. repeat split; congruence. }
  destruct (top_of_partition db country_code _ Hv) as (iv & i & Hlatest & _ & Htop).
  destruct Hlatest as (before & after & Hsplit & [Hcc Hcode] & Hbefore & Hafter).
  exists iv. split; [rewrite Hsplit; apply elem_of_app; right; apply list_elem_of_here|].
  split; [done|]. split; [done|]. split.
  - rewrite <- head_order_by_desc in Htop.
    change (λ a b, j_year b <? j_year a) with year_desc in Htop.
    destruct (order_by year_desc _) as [|r rest]; [done|].
    injection Htop as ->. done.
  - intros r Hr Hrcc Hrcode. rewrite Hsplit in Hr.
    apply elem_of_app in Hr as [Hr|Hr].
    + apply Z.lt_le_incl. by apply Hbefore.
    + apply elem_of_cons in Hr as [->|Hr]; [lia|]. by apply Hafter.
Qed.

Lemma country_indicators_head_latest_witness :
  ∃ s, get_country_indicators two_years_store "BRA" None = Response (brazil_row, [s]) ∧
    ∃ iv, iv ∈ tbl_indicator_values two_years_store ∧
      v_country_code iv = "BRA" ∧ v_indicator_code iv = is_indicator_code s ∧
      head (is_values s) = Some (v_year iv, v_value iv) ∧
      ∀ r, r ∈ tbl_indicator_values two_years_store → v_country_code r = "BRA" →
        v_indicator_code r = is_indicator_code s → v_year r ≤ v_year iv.
Proof.
  eexists. split; [reflexivity|].
  eapply (country_indicators_head_latest two_years_store "BRA" None brazil_row).
  - apply NoDup_singleton.
  - reflexivity.
  - apply list_elem_of_here.
Defined.
